(** * EmailDispenser: a shallow embedding of [EMAIL BUDDY/script.js]

    The development models the email-lifecycle store of the dispenser page
    (the [EmailDispenser] class): the entry collection, its persisted copy in
    [localStorage], the expiration sweep, the inbox poll with its
    notification delta, and the countdown formatter [formatTimeLeft].

    JavaScript Numbers are IEEE-754 binary64 values.  They are modelled by the
    Standard Library's [spec_float] at precision 53 and maximal exponent 1024,
    so every arithmetic step below rounds exactly as the script does. *)

From stdpp Require Import base option list strings gmap.
From Stdlib Require Import ZArith QArith Qround Lia SpecFloat DecimalString.

#[local] Open Scope Z_scope.

(** ** JavaScript Numbers *)

Module JS.

Abbreviation Number := spec_float.

Definition prec : Z := 53.
Definition emax : Z := 1024.

Definition NaN : Number := S754_nan.

(** A [spec_float] is a double when its mantissa is in canonical form. *)
Definition is_double (x : Number) : bool := valid_binary prec emax x.

(** The Number nearest to an integer (exact below [2^53]). *)
Definition of_Z (z : Z) : Number := binary_normalize prec emax z 0 false.

Definition add : Number -> Number -> Number := SFadd prec emax.
Definition mul : Number -> Number -> Number := SFmul prec emax.
Definition div : Number -> Number -> Number := SFdiv prec emax.

(** [x < y], [x <= y]: false as soon as one side is [NaN]. *)
Definition lt : Number -> Number -> bool := SFltb.
Definition le : Number -> Number -> bool := SFleb.

(** ToBoolean on a Number: [0], [-0] and [NaN] are falsy. *)
Definition truthy (x : Number) : bool :=
  match x with
  | S754_zero _ | S754_nan => false
  | _ => true
  end.

(** The integer [floor x] of a finite Number. *)
Definition floorZ (s : bool) (m : positive) (e : Z) : Z :=
  (cond_Zopp s (Zpos m) * 2 ^ Z.max e 0) / 2 ^ Z.max (- e) 0.

(** The integer part of a finite Number, rounding toward zero. *)
Definition truncZ (s : bool) (m : positive) (e : Z) : Z :=
  Z.quot (cond_Zopp s (Zpos m) * 2 ^ Z.max e 0) (2 ^ Z.max (- e) 0).

(** [Math.floor]. *)
Definition Math_floor (x : Number) : Number :=
  match x with
  | S754_finite s m e => binary_normalize prec emax (floorZ s m e) 0 s
  | _ => x
  end.

(** [Math.max] of two arguments: [NaN] is contagious and [+0] is above [-0]. *)
Definition Math_max (x y : Number) : Number :=
  match SFcompare x y with
  | None => NaN
  | Some Lt => y
  | Some Gt => x
  | Some Eq =>
      match x with
      | S754_zero true => y
      | _ => x
      end
  end.

(** The remainder operator [x % y]: exact, with the sign of the dividend. *)
Definition rem (x y : Number) : Number :=
  match x, y with
  | S754_nan, _ | _, S754_nan => NaN
  | S754_infinity _, _ => NaN
  | _, S754_zero _ => NaN
  | S754_zero _, _ => x
  | S754_finite _ _ _, S754_infinity _ => x
  | S754_finite sx mx ex, S754_finite _ my ey =>
      let ez := Z.min ex ey in
      let X := Zpos mx * 2 ^ (ex - ez) in
      let Y := Zpos my * 2 ^ (ey - ez) in
      binary_normalize prec emax (cond_Zopp sx (Z.rem X Y)) ez sx
  end.

(** *** Number::toString (radix 10) *)

Definition decimal (z : Z) : string := NilZero.string_of_int (Z.to_int z).

(** The real value of a positive finite Number. *)
Definition valueQ (m : positive) (e : Z) : Q :=
  Qmult (inject_Z (Zpos m)) (Qpower (2 # 1) e).

Definition pow10 (n : Z) : Q := Qpower (10 # 1) n.

Definition Qltb (a b : Q) : bool := negb (Qle_bool b a).

(** The reals that round to [m * 2^e] lie between [round_lo] and [round_hi];
    the end points themselves round to it exactly when [m] is even. *)
Definition round_hi (m : positive) (e : Z) : Q :=
  Qmult (inject_Z (2 * Zpos m + 1)) (Qpower (2 # 1) (e - 1)).

Definition round_lo (m : positive) (e : Z) : Q :=
  if (Zpos m =? 2 ^ (prec - 1)) && (emin prec emax <? e)
  then Qmult (inject_Z (4 * Zpos m - 1)) (Qpower (2 # 1) (e - 2))
  else Qmult (inject_Z (2 * Zpos m - 1)) (Qpower (2 # 1) (e - 1)).

Definition rounds_to (m : positive) (e : Z) (v : Q) : bool :=
  if Z.even (Zpos m)
  then Qle_bool (round_lo m e) v && Qle_bool v (round_hi m e)
  else Qltb (round_lo m e) v && Qltb v (round_hi m e).

(** The decimal magnitude of [x > 0]: the [n] with [10^(n-1) <= x < 10^n],
    searched downwards and then upwards from an estimate [n0]. *)
Fixpoint magnitude_down (fuel : nat) (n0 : Z) (x : Q) : Z :=
  match fuel with
  | O => n0
  | S fuel' =>
      if Qltb x (pow10 (n0 - 1)) then magnitude_down fuel' (n0 - 1) x else n0
  end.

Fixpoint magnitude_up (fuel : nat) (n0 : Z) (x : Q) : Z :=
  match fuel with
  | O => n0
  | S fuel' => if Qltb x (pow10 n0) then n0 else magnitude_up fuel' (n0 + 1) x
  end.

Definition magnitude (m : positive) (e : Z) : Z :=
  let x := valueQ m e in
  let n0 := ((Zpos (digits2_pos m) + e) * 30103) / 100000 in
  magnitude_up 700 (magnitude_down 700 n0 x) x.

(** The shortest digit string [s] (with [k] digits, from [k] on) such that
    [s * 10^(n-k)] rounds to [x]; among two candidates the closer one. *)
Fixpoint shortest (fuel : nat) (k : Z) (n : Z) (m : positive) (e : Z) : Z * Z :=
  let x := valueQ m e in
  let P := pow10 (n - k) in
  let lo := Qfloor (Qdiv x P) in
  let hi := lo + 1 in
  let vlo := Qmult (inject_Z lo) P in
  let vhi := Qmult (inject_Z hi) P in
  let pick (s : Z) := if s =? 10 ^ k then (1, n + 1) else (s, n) in
  match fuel with
  | O => pick lo
  | S fuel' =>
      match rounds_to m e vlo, rounds_to m e vhi with
      | true, false => pick lo
      | false, true => pick hi
      | true, true =>
          match Qcompare (Qminus x vlo) (Qminus vhi x) with
          | Lt => pick lo
          | Gt => pick hi
          | Eq => if Z.even lo then pick lo else pick hi
          end
      | false, false => shortest fuel' (k + 1) n m e
      end
  end.

Definition zeros (n : Z) : string := String.concat "" (replicate (Z.to_nat n) "0"%string).

Definition Number_toString (x : Number) : string :=
  match x with
  | S754_nan => "NaN"
  | S754_zero _ => "0"
  | S754_infinity s => if s then "-Infinity" else "Infinity"
  | S754_finite s m e =>
      let '(d, n) := shortest 17 1 (magnitude m e) m e in
      let digits := decimal d in
      let k := Z.of_nat (String.length digits) in
      let body :=
        if (k <=? n) && (n <=? 21) then digits +:+ zeros (n - k)
        else if (0 <? n) && (n <=? 21) then
          String.substring 0 (Z.to_nat n) digits +:+ "." +:+
          String.substring (Z.to_nat n) (Z.to_nat (k - n)) digits
        else if (-6 <? n) && (n <=? 0) then "0." +:+ zeros (- n) +:+ digits
        else
          let ex := (if 0 <=? n - 1 then "e+" else "e-") +:+ decimal (Z.abs (n - 1)) in
          if k =? 1 then digits +:+ ex
          else String.substring 0 1 digits +:+ "." +:+
               String.substring 1 (Z.to_nat (k - 1)) digits +:+ ex
      in
      (if s then "-" else "") +:+ body
  end.

End JS.

Import JS.

(** ** The countdown formatter *)

(** [formatTimeLeft(totalHours)], script.js lines 399-426.  Every [${...}]
    of the template literals is [Number_toString]. *)
Definition formatTimeLeft (totalHours : Number) : string :=
  if lt totalHours (of_Z 0) then "Expired"
  else if lt totalHours (div (of_Z 1) (of_Z 60)) then
    let seconds := Math_max (of_Z 1) (Math_floor (mul totalHours (of_Z 3600))) in
    Number_toString seconds +:+ "s"
  else if lt totalHours (of_Z 1) then
    let minutes := Math_floor (mul totalHours (of_Z 60)) in
    let seconds := Math_floor (rem (mul totalHours (of_Z 3600)) (of_Z 60)) in
    Number_toString minutes +:+ "m " +:+ Number_toString seconds +:+ "s"
  else if lt totalHours (of_Z 24) then
    let hours := Math_floor totalHours in
    let minutes := Math_floor (mul (rem totalHours (of_Z 1)) (of_Z 60)) in
    Number_toString hours +:+ "h " +:+ Number_toString minutes +:+ "m"
  else if lt totalHours (of_Z 168) then
    let days := Math_floor (div totalHours (of_Z 24)) in
    let hours := Math_floor (rem totalHours (of_Z 24)) in
    Number_toString days +:+ "d " +:+ Number_toString hours +:+ "h"
  else if lt totalHours (of_Z 730) then
    let weeks := Math_floor (div totalHours (of_Z 168)) in
    let days := Math_floor (div (rem totalHours (of_Z 168)) (of_Z 24)) in
    Number_toString weeks +:+ "w " +:+ Number_toString days +:+ "d"
  else
    let months := Math_floor (div totalHours (of_Z 730)) in
    let weeks := Math_floor (div (rem totalHours (of_Z 730)) (of_Z 168)) in
    Number_toString months +:+ "mo " +:+ Number_toString weeks +:+ "w".

(** ** Completions: normal return or a thrown error *)

Inductive JsError :=
  | FetchError                (* a rejected [fetch] promise *)
  | HttpError (status : Z)    (* [new Error(`HTTP error! status: ...`)] *)
  | SyntaxError               (* [JSON.parse] / [response.json()] *)
  | RangeError                (* [toISOString] on an invalid Date *)
  | TypeError                 (* a method or property of a value without it *)
  | QuotaExceededError.       (* [localStorage.setItem] refused by the browser *)

Inductive Completion (A : Type) :=
  | Normal (a : A)
  | Throw (err : JsError).

Arguments Normal {A} a.
Arguments Throw {A} err.

#[global] Instance Completion_ret : MRet Completion := @Normal.

#[global] Instance Completion_bind : MBind Completion := fun A B k c =>
  match c with
  | Normal a => k a
  | Throw err => Throw err
  end.

(** [try { body } catch (error) { handler }]. *)
Definition try_catch {A : Type}
    (body : Completion A) (handler : JsError -> Completion A) : Completion A :=
  match body with
  | Normal a => Normal a
  | Throw err => handler err
  end.

(** ** Data model *)

(** One row of [emailDatabase].  [date] and [expiration] are ISO strings in
    the script; the model keeps the time value (milliseconds since the epoch)
    each string denotes, and [None] for [null]. *)
Record Entry := {
  email : string;
  date : Z;
  expiration : option Z;
  messages : nat
}.

(** A message summary of the mailbox API. *)
Record Message := {
  id : Z;
  from : string;
  subject : string
}.

Inductive ToastType := success | error.

Record Toast := {
  toast_message : string;
  toast_type : ToastType
}.

(** A JSON value that is not an array of entries, as far as the script looks
    into the collection: it calls array methods on it and reads properties
    of its elements.  [text] is the JSON text of the value. *)
Inductive Foreign :=
  | NonArray (text : string)        (* null, true, 7, "x", {..}: no array method *)
  | ArrayWithNull (text : string).  (* [null], [{..}, null]: an element without properties *)

(** A [localStorage] value, classified by what [JSON.parse] makes of it:
    the text [JSON.stringify db] of an array of entries, a text that
    [JSON.parse] rejects, or the JSON text of a foreign value.  (An array
    that holds values of another shape and no [null] is not represented.) *)
Inductive Stored :=
  | Serialized (db : list Entry)
  | Unparseable (text : string)
  | OtherJson (value : Foreign).

(** What [JSON.parse] returns for a record, and so what [this.emailDatabase]
    can hold after a restore. *)
Inductive Collection :=
  | Entries (db : list Entry)
  | NotEntries (value : Foreign).

Definition JSON_parse (v : Stored) : Completion Collection :=
  match v with
  | Serialized db => Normal (Entries db)
  | Unparseable _ => Throw SyntaxError
  | OtherJson value => Normal (NotEntries value)
  end.

(** ToBoolean of a stored text: only the empty string is falsy. *)
Definition stored_truthy (v : Stored) : bool :=
  match v with
  | Unparseable "" => false
  | _ => true
  end.

(** The fields of [EmailDispenser] the store reads and writes, together with
    the parts of the page it acts on: [localStorage], the expiration dialog,
    the toasts shown, the native notifications raised and the console.
    [emailDatabase] is an array of entries in every state of this type.
    [storageQuota] tells of which items the browser's storage has room for:
    [setItem] throws when the items after the write are not among them. *)
Record Dispenser := {
  currentEmail : string;
  emailDatabase : list Entry;
  lastCheckedMessages : gmap string (gset Z);
  hasNotificationPermission : bool;
  deviceId : string;
  localStorage : gmap string Stored;
  storageQuota : gmap string Stored -> bool;
  notificationApi : bool;               (* ["Notification" in window] *)
  expirationDialog : bool;              (* the dialog is displayed *)
  toasts : list Toast;                  (* oldest first *)
  notifications : list (string * Z);    (* address and message id *)
  console : list string
}.

Definition with_currentEmail (x : string) (st : Dispenser) : Dispenser :=
  {| currentEmail := x; emailDatabase := emailDatabase st;
     lastCheckedMessages := lastCheckedMessages st;
     hasNotificationPermission := hasNotificationPermission st;
     deviceId := deviceId st; localStorage := localStorage st;
     storageQuota := storageQuota st;
     notificationApi := notificationApi st;
     expirationDialog := expirationDialog st; toasts := toasts st;
     notifications := notifications st; console := console st |}.

Definition with_emailDatabase (x : list Entry) (st : Dispenser) : Dispenser :=
  {| currentEmail := currentEmail st; emailDatabase := x;
     lastCheckedMessages := lastCheckedMessages st;
     hasNotificationPermission := hasNotificationPermission st;
     deviceId := deviceId st; localStorage := localStorage st;
     storageQuota := storageQuota st;
     notificationApi := notificationApi st;
     expirationDialog := expirationDialog st; toasts := toasts st;
     notifications := notifications st; console := console st |}.

Definition with_lastCheckedMessages (x : gmap string (gset Z)) (st : Dispenser) : Dispenser :=
  {| currentEmail := currentEmail st; emailDatabase := emailDatabase st;
     lastCheckedMessages := x;
     hasNotificationPermission := hasNotificationPermission st;
     deviceId := deviceId st; localStorage := localStorage st;
     storageQuota := storageQuota st;
     notificationApi := notificationApi st;
     expirationDialog := expirationDialog st; toasts := toasts st;
     notifications := notifications st; console := console st |}.

Definition with_localStorage (x : gmap string Stored) (st : Dispenser) : Dispenser :=
  {| currentEmail := currentEmail st; emailDatabase := emailDatabase st;
     lastCheckedMessages := lastCheckedMessages st;
     hasNotificationPermission := hasNotificationPermission st;
     deviceId := deviceId st; localStorage := x;
     storageQuota := storageQuota st;
     notificationApi := notificationApi st;
     expirationDialog := expirationDialog st; toasts := toasts st;
     notifications := notifications st; console := console st |}.

Definition with_expirationDialog (x : bool) (st : Dispenser) : Dispenser :=
  {| currentEmail := currentEmail st; emailDatabase := emailDatabase st;
     lastCheckedMessages := lastCheckedMessages st;
     hasNotificationPermission := hasNotificationPermission st;
     deviceId := deviceId st; localStorage := localStorage st;
     storageQuota := storageQuota st;
     notificationApi := notificationApi st;
     expirationDialog := x; toasts := toasts st;
     notifications := notifications st; console := console st |}.

Definition with_toasts (x : list Toast) (st : Dispenser) : Dispenser :=
  {| currentEmail := currentEmail st; emailDatabase := emailDatabase st;
     lastCheckedMessages := lastCheckedMessages st;
     hasNotificationPermission := hasNotificationPermission st;
     deviceId := deviceId st; localStorage := localStorage st;
     storageQuota := storageQuota st;
     notificationApi := notificationApi st;
     expirationDialog := expirationDialog st; toasts := x;
     notifications := notifications st; console := console st |}.

Definition with_notifications (x : list (string * Z)) (st : Dispenser) : Dispenser :=
  {| currentEmail := currentEmail st; emailDatabase := emailDatabase st;
     lastCheckedMessages := lastCheckedMessages st;
     hasNotificationPermission := hasNotificationPermission st;
     deviceId := deviceId st; localStorage := localStorage st;
     storageQuota := storageQuota st;
     notificationApi := notificationApi st;
     expirationDialog := expirationDialog st; toasts := toasts st;
     notifications := x; console := console st |}.

Definition with_console (x : list string) (st : Dispenser) : Dispenser :=
  {| currentEmail := currentEmail st; emailDatabase := emailDatabase st;
     lastCheckedMessages := lastCheckedMessages st;
     hasNotificationPermission := hasNotificationPermission st;
     deviceId := deviceId st; localStorage := localStorage st;
     storageQuota := storageQuota st;
     notificationApi := notificationApi st;
     expirationDialog := expirationDialog st; toasts := toasts st;
     notifications := notifications st; console := x |}.

Definition with_storageQuota (x : gmap string Stored -> bool) (st : Dispenser) : Dispenser :=
  {| currentEmail := currentEmail st; emailDatabase := emailDatabase st;
     lastCheckedMessages := lastCheckedMessages st;
     hasNotificationPermission := hasNotificationPermission st;
     deviceId := deviceId st; localStorage := localStorage st;
     storageQuota := x;
     notificationApi := notificationApi st;
     expirationDialog := expirationDialog st; toasts := toasts st;
     notifications := notifications st; console := console st |}.

Definition with_messages (count : nat) (e : Entry) : Entry :=
  {| email := email e; date := date e; expiration := expiration e;
     messages := count |}.

(** The addresses of the live entries, in display order. *)
Definition addresses (st : Dispenser) : list string := email <$> emailDatabase st.

(** ** Page effects *)

(** [showToast(message, type = 'success')], lines 537-543. *)
Definition showToast (message : string) (type : ToastType) (st : Dispenser) : Dispenser :=
  with_toasts (toasts st ++ [{| toast_message := message; toast_type := type |}]) st.

Definition console_error (line : string) (st : Dispenser) : Dispenser :=
  with_console (console st ++ [line]) st.

(** [showExpirationDialog()], lines 69-77. *)
Definition showExpirationDialog (st : Dispenser) : Dispenser :=
  with_expirationDialog true st.

(** ** Persistence *)

(** The key [`emailDatabase_${this.deviceId}`]. *)
Definition storageKey (st : Dispenser) : string := "emailDatabase_" +:+ deviceId st.

(** [localStorage.setItem(key, value)]: the write, or the exception of a
    storage that has no room for it. *)
Definition setItem (key : string) (value : Stored) (st : Dispenser) : Completion Dispenser :=
  let items := <[key := value]> (localStorage st) in
  if storageQuota st items then Normal (with_localStorage items st)
  else Throw QuotaExceededError.

(** [saveToLocalStorage()], lines 146-152: the [catch] block logs the
    exception of [setItem] and returns, leaving the record as it was. *)
Definition saveToLocalStorage (st : Dispenser) : Dispenser :=
  match setItem (storageKey st) (Serialized (emailDatabase st)) st with
  | Normal st' => st'
  | Throw _ => console_error "Error saving to localStorage:" st
  end.

(** The dispenser after an assignment to [this.emailDatabase]: a state of
    the model when the value is an array of entries; otherwise the foreign
    value, beside the state that holds the other fields. *)
Inductive Restored :=
  | Restored_entries (st : Dispenser)
  | Restored_foreign (value : Foreign) (st : Dispenser).

Definition assign_emailDatabase (value : Collection) (st : Dispenser) : Restored :=
  match value with
  | Entries db => Restored_entries (with_emailDatabase db st)
  | NotEntries value => Restored_foreign value st
  end.

(** [loadFromLocalStorage()], lines 136-144. *)
Definition loadFromLocalStorage (st : Dispenser) : Completion Restored :=
  try_catch
    (value ← match localStorage st !! storageKey st with
             | Some stored =>
                 if stored_truthy stored then JSON_parse stored
                 else Normal (Entries [])
             | None => Normal (Entries [])
             end;
     Normal (assign_emailDatabase value st))
    (fun _ =>
       let st := console_error "Error loading from localStorage:" st in
       Normal (assign_emailDatabase (Entries []) st)).

(** ** Remote calls *)

(** What [await fetch(...)] followed by [await response.json()] delivers. *)
Inductive Fetched (A : Type) :=
  | FetchRejected
  | HttpFailure (status : Z)
  | JsonFailure
  | Body (data : A).

Arguments FetchRejected {A}.
Arguments HttpFailure {A} status.
Arguments JsonFailure {A}.
Arguments Body {A} data.

(** [fetch], the [response.ok] test and [response.json()]. *)
Definition await_json {A : Type} (reply : Fetched A) : Completion A :=
  match reply with
  | FetchRejected => Throw FetchError
  | HttpFailure status => Throw (HttpError status)
  | JsonFailure => Throw SyntaxError
  | Body data => Normal data
  end.

(** The JSON body of [genRandomMailbox]. *)
Inductive MailboxData :=
  | NotArray
  | Array (items : list string).

(** [generateNewEmail()], lines 52-67. *)
Definition generateNewEmail
    (reply : Fetched MailboxData) (st : Dispenser) : Completion Dispenser :=
  try_catch
    (data ← await_json reply;
     match data with
     | Array (first :: _) =>
         Normal (showExpirationDialog (with_currentEmail first st))
     | _ => Normal st
     end)
    (fun _ =>
       let st := console_error "Error generating email:" st in
       Normal (showToast "Failed to generate email" error st)).

(** ** Committing an address *)

(** [new Date(value)]: the time value, or [None] for an invalid Date. *)
Definition Date_new (value : Number) : option Z :=
  match value with
  | S754_zero _ => Some 0
  | S754_finite s m e =>
      let t := truncZ s m e in
      if Z.abs t <=? 8640000000000000 then Some t else None
  | _ => None
  end.

(** [toISOString()] throws on an invalid Date. *)
Definition toISOString (d : option Z) : Completion Z :=
  match d with
  | Some t => Normal t
  | None => Throw RangeError
  end.

(** [saveEmailWithExpiration(hours)], lines 117-134, at clock reading [now]. *)
Definition saveEmailWithExpiration
    (hours : option Number) (now : Z) (st : Dispenser) : Completion Dispenser :=
  expirationTime ←
    match hours with
    | Some h =>
        if truthy h then
          t ← toISOString (Date_new (add (of_Z now) (mul h (of_Z 3600000))));
          Normal (Some t)
        else Normal None
    | None => Normal None
    end;
  let newEntry :=
    {| email := currentEmail st; date := now;
       expiration := expirationTime; messages := 0 |} in
  let st := with_emailDatabase (emailDatabase st ++ [newEntry]) st in
  let st := saveToLocalStorage st in
  let st := with_expirationDialog false st in
  Normal
    (showToast
       ("Email saved" +:+
        match hours with
        | Some h =>
            if truthy h then " with " +:+ Number_toString h +:+ " hour expiration"
            else " without expiration"
        | None => " without expiration"
        end)
       success st).

(** [saveCustomExpiration()], lines 101-115; [time] and [unit] are the
    Numbers [parseFloat] returned for the two inputs ([NaN] for a text that
    does not start with a number). *)
Definition saveCustomExpiration
    (time unit : Number) (now : Z) (st : Dispenser) : Completion Dispenser :=
  if negb (truthy time) || le time (of_Z 0) then
    Normal (showToast "Please enter a valid time" error st)
  else
    let hours := mul time unit in
    saveEmailWithExpiration (Some hours) now st.

(** ** Expiry, deletion, clearing *)

(** The filter callback of [checkExpirations] removes [entry] when this holds. *)
Definition expired (now : Z) (entry : Entry) : bool :=
  match expiration entry with
  | None => false
  | Some expirationDate => expirationDate <=? now
  end.

(** [checkExpirations()], lines 581-599, at clock reading [now]. *)
Definition checkExpirations (now : Z) (st : Dispenser) : Dispenser :=
  let changed := existsb (expired now) (emailDatabase st) in
  let st :=
    with_emailDatabase
      (List.filter (fun entry => negb (expired now entry)) (emailDatabase st)) st in
  if changed then saveToLocalStorage st else st.

(** [array.splice(index, 1)]. *)
Definition splice1 {A : Type} (index : Z) (l : list A) : list A :=
  let len := Z.of_nat (length l) in
  let start := if index <? 0 then Z.max (len + index) 0 else Z.min index len in
  delete (Z.to_nat start) l.

(** [deleteEmailFromDB(index)], lines 449-454. *)
Definition deleteEmailFromDB (index : Z) (st : Dispenser) : Dispenser :=
  let st := with_emailDatabase (splice1 index (emailDatabase st)) st in
  let st := saveToLocalStorage st in
  showToast "Email deleted from history" success st.

(** [clearDatabase()], lines 456-463; [confirmed] is the answer to [confirm]. *)
Definition clearDatabase (confirmed : bool) (st : Dispenser) : Dispenser :=
  if confirmed then
    let st := with_emailDatabase [] st in
    let st := with_localStorage (delete (storageKey st) (localStorage st)) st in
    showToast "History cleared" success st
  else st.

(** ** Polling *)

(** [array.findIndex(p)], with [None] for [-1]. *)
Fixpoint findIndex {A : Type} (p : A -> bool) (l : list A) : option nat :=
  match l with
  | [] => None
  | x :: rest => if p x then Some O else S <$> findIndex p rest
  end.

(** The update block shared by [updateMessageCount] and [checkMail]. *)
Definition setMessageCount (count : nat) (st : Dispenser) : Dispenser :=
  match findIndex (fun e => String.eqb (email e) (currentEmail st)) (emailDatabase st) with
  | Some index =>
      saveToLocalStorage
        (with_emailDatabase (alter (with_messages count) index (emailDatabase st)) st)
  | None => st
  end.

(** [updateMessageCount(count)], lines 528-535. *)
Definition updateMessageCount (count : nat) (st : Dispenser) : Dispenser :=
  setMessageCount count st.

Definition lastChecked (st : Dispenser) : gset Z :=
  default ∅ (lastCheckedMessages st !! currentEmail st).

(** [filterNewMessages(messages)], lines 200-203. *)
Definition filterNewMessages (messages : list Message) (st : Dispenser) : list Message :=
  List.filter (fun msg => negb (bool_decide (id msg ∈ lastChecked st))) messages.

(** [showEmailNotification(message)], lines 205-232. *)
Definition showEmailNotification (message : Message) (st : Dispenser) : Dispenser :=
  if negb (notificationApi st) || negb (hasNotificationPermission st) then
    showToast ("New email from " +:+ from message) success st
  else
    with_notifications (notifications st ++ [(currentEmail st, id message)]) st.

(** [checkMail(silent)], lines 154-198, given the reply of the mailbox API. *)
Definition checkMail
    (silent : bool) (reply : Fetched (list Message)) (st : Dispenser) :
    Completion Dispenser :=
  if String.eqb (currentEmail st) "" then
    Normal (if silent then st else showToast "No email selected" error st)
  else
    try_catch
      (messages ← await_json reply;
       let st := setMessageCount (length messages) st in
       let newMessages := filterNewMessages messages st in
       let st :=
         with_lastCheckedMessages
           (<[currentEmail st := list_to_set (id <$> messages)]>
              (lastCheckedMessages st)) st in
       Normal (foldl (fun st msg => showEmailNotification msg st) st newMessages))
      (fun _ =>
         let st := console_error "Error checking mail:" st in
         Normal (if silent then st else showToast "Failed to check messages" error st)).

(** ** The store operations of the specification *)

Inductive StoreOp :=
  | Commit (address : string) (hours : option Number) (now : Z)
  | RecordMessageCount (address : string) (count : nat)
  | SweepExpired (now : Z)
  | Delete (index : Z)
  | Clear.

Definition apply_op (op : StoreOp) (st : Dispenser) : Completion Dispenser :=
  match op with
  | Commit address hours now =>
      saveEmailWithExpiration hours now (with_currentEmail address st)
  | RecordMessageCount address count =>
      Normal (updateMessageCount count (with_currentEmail address st))
  | SweepExpired now => Normal (checkExpirations now st)
  | Delete index => Normal (deleteEmailFromDB index st)
  | Clear => Normal (clearDatabase true st)
  end.

Fixpoint run (ops : list StoreOp) (st : Dispenser) : Completion Dispenser :=
  match ops with
  | [] => Normal st
  | op :: rest => st' ← apply_op op st; run rest st'
  end.

(** One store operation; a commit is taken only for an address that is not
    yet among the live entries. *)
Inductive step : relation Dispenser :=
  | step_op (op : StoreOp) (st st' : Dispenser) :
      (forall address hours now,
         op = Commit address hours now -> address ∉ addresses st) ->
      apply_op op st = Normal st' ->
      step st st'.

(** The toast and the notification a new message raises. *)
Definition new_mail_toast (message : Message) : Toast :=
  {| toast_message := "New email from " +:+ from message; toast_type := success |}.

(** What a poll adds to the page for the new messages [msgs]: toasts when
    native notifications are unavailable or not permitted, native
    notifications otherwise. *)
Definition raised (st : Dispenser) (msgs : list Message) (st' : Dispenser) : Prop :=
  if negb (notificationApi st) || negb (hasNotificationPermission st) then
    toasts st' = toasts st ++ (new_mail_toast <$> msgs) /\
    notifications st' = notifications st
  else
    notifications st' =
      notifications st ++ ((fun msg => (currentEmail st, id msg)) <$> msgs) /\
    toasts st' = toasts st.

(** An entry as [saveEmailWithExpiration] builds it, for the examples. *)
Definition sample_entry (address : string) (expires : option Z) : Entry :=
  {| email := address; date := 0; expiration := expires; messages := 0 |}.

Definition sample_message (n : Z) : Message :=
  {| id := n; from := "sender@example.org"; subject := "hello" |}.

(** A dispenser polling [a@x.com] that has already seen messages 1 and 2. *)
Definition sample_poll (st : Dispenser) : Dispenser :=
  with_lastCheckedMessages {[ "a@x.com"%string := ({[ 1; 2 ]} : gset Z) ]}
    (with_currentEmail "a@x.com" st).

(** A freshly constructed dispenser on a device with empty storage that has
    room for every write. *)
Definition fresh (device : string) : Dispenser :=
  {| currentEmail := ""; emailDatabase := [];
     lastCheckedMessages := ∅; hasNotificationPermission := false;
     deviceId := device; localStorage := ∅; storageQuota := fun _ => true;
     notificationApi := false;
     expirationDialog := false; toasts := []; notifications := [];
     console := [] |}.

(** ** The rest of the page: display, options, selection, timers *)

Definition Number_sub : Number -> Number -> Number := SFsub prec emax.

(** [getExpirationInfo(entry)], lines 387-397, at clock reading [now].  The
    difference of the two Dates is the difference of their time values. *)
Definition getExpirationInfo (entry : Entry) (now : Z) : string :=
  match expiration entry with
  | None => "Manual deletion"
  | Some expirationDate =>
      let hoursLeft :=
        div (Number_sub (of_Z expirationDate) (of_Z now)) (of_Z 3600000) in
      "⏳ " +:+ formatTimeLeft hoursLeft
  end.

(** The three kinds of [.option] elements of the expiration dialog;
    [hours] is what [parseInt(option.dataset.hours)] returned. *)
Inductive ExpirationOption :=
  | CustomOption
  | ManualOption
  | HoursOption (hours : Number).

(** [handleExpirationOption(option)], lines 79-99. *)
Definition handleExpirationOption
    (option : ExpirationOption) (now : Z) (st : Dispenser) : Completion Dispenser :=
  match option with
  | CustomOption => Normal st
  | ManualOption => saveEmailWithExpiration None now st
  | HoursOption hours => saveEmailWithExpiration (Some hours) now st
  end.

(** [selectEmailFromHistory(email)], lines 601-626. *)
Definition selectEmailFromHistory
    (address : string) (reply : Fetched (list Message)) (st : Dispenser) :
    Completion Dispenser :=
  checkMail true reply (with_currentEmail address st).

(** The callback of [startAutoRefresh()], lines 681-688. *)
Definition autoRefresh
    (reply : Fetched (list Message)) (st : Dispenser) : Completion Dispenser :=
  if String.eqb (currentEmail st) "" then Normal st else checkMail true reply st.

(** [init()], lines 18-24: restore, then the initial expiration check of
    [startExpirationChecker()], line 554.  On a foreign collection the
    [this.emailDatabase.filter(...)] of [checkExpirations], line 585, throws:
    the value has no [filter], or the callback reads [entry.expiration] of
    [null]; nothing catches it. *)
Definition init (now : Z) (st : Dispenser) : Completion Dispenser :=
  restored ← loadFromLocalStorage st;
  match restored with
  | Restored_entries st => Normal (checkExpirations now st)
  | Restored_foreign _ _ => Throw TypeError
  end.

(** The events the page reacts to, as wired by [setupEventListeners()] and
    the two timers. *)
Inductive Action :=
  | Generate (reply : Fetched MailboxData)
  | ChooseOption (option : ExpirationOption) (now : Z)
  | ConfirmCustom (time unit : Number) (now : Z)
  | CheckMail (reply : Fetched (list Message))
  | Select (address : string) (reply : Fetched (list Message))
  | AutoRefresh (reply : Fetched (list Message))
  | ExpirationTick (now : Z)
  | DeleteRow (index : Z)
  | ClearAll (confirmed : bool).

Definition act (a : Action) (st : Dispenser) : Completion Dispenser :=
  match a with
  | Generate reply => generateNewEmail reply st
  | ChooseOption option now => handleExpirationOption option now st
  | ConfirmCustom time unit now => saveCustomExpiration time unit now st
  | CheckMail reply => checkMail false reply st
  | Select address reply => selectEmailFromHistory address reply st
  | AutoRefresh reply => autoRefresh reply st
  | ExpirationTick now => Normal (checkExpirations now st)
  | DeleteRow index => Normal (deleteEmailFromDB index st)
  | ClearAll confirmed => Normal (clearDatabase confirmed st)
  end.

(** One event handled to completion. *)
Definition handles (st st' : Dispenser) : Prop :=
  exists a, act a st = Normal st'.

(** The in-memory collection is what a restore would load. *)
Definition restorable (st : Dispenser) : Prop :=
  exists st', loadFromLocalStorage st = Normal (Restored_entries st') /\
              emailDatabase st' = emailDatabase st.

(** The entries of the persisted record: none when the record is absent or
    is not the serialization of an array of entries. *)
Definition persisted (st : Dispenser) : list Entry :=
  match localStorage st !! storageKey st with
  | Some (Serialized db) => db
  | _ => []
  end.

(** The persisted record holds valid JSON that is not an array of entries. *)
Definition foreign_record (st : Dispenser) : Prop :=
  exists value, localStorage st !! storageKey st = Some (OtherJson value).

(** What [saveToLocalStorage()] leaves on the way from [st] to [st']: when
    the storage takes the write, the record holds the collection of [st']
    and the console is as it was; when [setItem] throws, the storage is as
    it was and the console has one more line. *)
Definition saved_or_logged (st st' : Dispenser) : Prop :=
  let items := <[storageKey st := Serialized (emailDatabase st')]> (localStorage st) in
  if storageQuota st items
  then localStorage st' = items /\ console st' = console st
  else localStorage st' = localStorage st /\
       console st' = console st ++ ["Error saving to localStorage:"].

(** The number of saves that failed so far, as the console shows them. *)
Definition save_errors (st : Dispenser) : nat :=
  length (List.filter (String.eqb "Error saving to localStorage:") (console st)).

Arguments save_errors : simpl never.

(** A dispenser whose storage refuses every write (a full or disabled
    storage). *)
Definition without_room (st : Dispenser) : Dispenser :=
  with_storageQuota (fun _ => false) st.

(** Two states agree outside the device's own record. *)
Definition same_outside_record (st st' : Dispenser) : Prop :=
  deviceId st' = deviceId st /\
  forall key, key <> storageKey st -> localStorage st' !! key = localStorage st !! key.

(** The ways an event can leave the collection and its record: both
    untouched, the record rewritten from the collection, a save that failed
    and was logged, or both cleared. *)
Definition store_effect (st st' : Dispenser) : Prop :=
  deviceId st' = deviceId st /\
  storageQuota st' = storageQuota st /\
  ((emailDatabase st' = emailDatabase st /\ localStorage st' = localStorage st /\
    save_errors st' = save_errors st) \/
   (localStorage st' =
      <[storageKey st := Serialized (emailDatabase st')]> (localStorage st) /\
    save_errors st' = save_errors st) \/
   (localStorage st' = localStorage st /\
    storageQuota st
      (<[storageKey st := Serialized (emailDatabase st')]> (localStorage st)) = false /\
    save_errors st' = S (save_errors st)) \/
   (emailDatabase st' = [] /\
    localStorage st' = delete (storageKey st) (localStorage st) /\
    save_errors st' = save_errors st)).

(** The address has a live entry without expiration. *)
Definition manual (address : string) (st : Dispenser) : Prop :=
  exists entry, entry ∈ emailDatabase st /\
                email entry = address /\ expiration entry = None.

(** Events that take no entry away from the collection. *)
Definition removes_nothing (a : Action) : bool :=
  match a with
  | DeleteRow _ | ClearAll _ => false
  | _ => true
  end.

(** A Number that is not zero and has sign [s] ([true] for negative):
    infinite, or finite with an exponent of at least [low]. *)
Definition nonzero_with_sign (s : bool) (low : Z) (x : Number) : Prop :=
  x = S754_infinity s \/ exists m e, x = S754_finite s m e /\ low <= e.

(** The time values a Date can hold. *)
Definition in_Date_range (t : Z) : Prop := Z.abs t <= 8640000000000000.



(** One event that removes no entry, handled to completion. *)
Definition handles_keeping (st st' : Dispenser) : Prop :=
  exists a, removes_nothing a = true /\ act a st = Normal st'.

(** ** Facts about rounding *)

Section Rounding.

Lemma digits2_pos_bounds (p : positive) :
  2 ^ (Zpos (digits2_pos p) - 1) <= Zpos p < 2 ^ Zpos (digits2_pos p).
Proof.
  induction p as [p IH|p IH|]; cbn [digits2_pos].
  - rewrite Pos2Z.inj_succ, (Pos2Z.inj_xI p).
    replace (Z.succ (Zpos (digits2_pos p)) - 1) with (Z.succ (Zpos (digits2_pos p) - 1)) by lia.
    rewrite !Z.pow_succ_r by lia.
    revert IH.
    generalize (2 ^ (Zpos (digits2_pos p) - 1)), (2 ^ Zpos (digits2_pos p)).
    intros a b IH. lia.
  - rewrite Pos2Z.inj_succ, (Pos2Z.inj_xO p).
    replace (Z.succ (Zpos (digits2_pos p)) - 1) with (Z.succ (Zpos (digits2_pos p) - 1)) by lia.
    rewrite !Z.pow_succ_r by lia.
    revert IH.
    generalize (2 ^ (Zpos (digits2_pos p) - 1)), (2 ^ Zpos (digits2_pos p)).
    intros a b IH. lia.
  - cbn. lia.
Qed.

Lemma Zdigits2_le (z k : Z) : 0 <= z < 2 ^ k -> 0 <= k -> 0 <= Zdigits2 z <= k.
Proof.
  intros [Hz Hlt] Hk. destruct z as [|p|p]; cbn [Zdigits2]; try lia.
  pose proof (digits2_pos_bounds p) as [Hlo _].
  assert (Zpos (digits2_pos p) - 1 < k); [|lia].
  apply (Z.pow_lt_mono_r_iff 2); lia.
Qed.

Lemma Zdigits2_gt (z : Z) : 0 <= z -> z < 2 ^ Zdigits2 z.
Proof.
  intros Hz. destruct z as [|p|p]; cbn [Zdigits2]; try lia.
  apply digits2_pos_bounds.
Qed.

Lemma shr_1_m (mrs : shr_record) :
  0 <= shr_m mrs -> shr_m (shr_1 mrs) = shr_m mrs / 2.
Proof.
  destruct mrs as [m r s]. cbn [shr_m]. intros Hm.
  destruct m as [|[p|p|]|p]; cbn [shr_1 shr_m]; try reflexivity; try lia.
  - apply Z.div_unique with (r := 1); lia.
  - apply Z.div_unique with (r := 0); lia.
Qed.

Lemma pow2_xI (p : positive) : 2 ^ Zpos p~1 = 2 * (2 ^ Zpos p * 2 ^ Zpos p).
Proof.
  replace (Zpos p~1) with (1 + (Zpos p + Zpos p)) by lia.
  rewrite !Z.pow_add_r by lia. reflexivity.
Qed.

Lemma pow2_xO (p : positive) : 2 ^ Zpos p~0 = 2 ^ Zpos p * 2 ^ Zpos p.
Proof.
  replace (Zpos p~0) with (Zpos p + Zpos p) by lia.
  rewrite !Z.pow_add_r by lia. reflexivity.
Qed.

Lemma iter_shr_1_m (p : positive) (mrs : shr_record) :
  0 <= shr_m mrs ->
  shr_m (iter_pos shr_1 p mrs) = shr_m mrs / 2 ^ Zpos p.
Proof.
  revert mrs. induction p as [p IH|p IH|]; intros mrs Hm; cbn [iter_pos].
  - assert (H1 : 0 <= shr_m (shr_1 mrs)) by (rewrite shr_1_m by lia; apply Z.div_pos; lia).
    assert (H2 : 0 <= shr_m (iter_pos shr_1 p (shr_1 mrs)))
      by (rewrite IH by lia; apply Z.div_pos; lia).
    rewrite IH, IH, shr_1_m, pow2_xI by lia.
    assert (0 < 2 ^ Zpos p) by lia.
    rewrite !Z.div_div by lia. reflexivity.
  - assert (H2 : 0 <= shr_m (iter_pos shr_1 p mrs))
      by (rewrite IH by lia; apply Z.div_pos; lia).
    rewrite IH, IH, pow2_xO by lia.
    assert (0 < 2 ^ Zpos p) by lia.
    rewrite !Z.div_div by lia. reflexivity.
  - rewrite shr_1_m by lia. reflexivity.
Qed.

Lemma shr_record_of_loc_m (m : Z) (l : location) : shr_m (shr_record_of_loc m l) = m.
Proof. destruct l as [|[]]; reflexivity. Qed.

Lemma shr_fexp_spec (M E : Z) (l : location) :
  0 <= M ->
  exists mrs,
    shr_fexp prec emax M E l = (mrs, Z.max E (fexp prec emax (Zdigits2 M + E))) /\
    shr_m mrs = M / 2 ^ (Z.max E (fexp prec emax (Zdigits2 M + E)) - E).
Proof.
  intros HM. unfold shr_fexp, shr.
  destruct (fexp prec emax (Zdigits2 M + E) - E) as [|p|p] eqn:Hn.
  - eexists; split; [f_equal; lia|].
    rewrite shr_record_of_loc_m.
    replace (Z.max _ _ - E) with 0 by lia. rewrite Z.pow_0_r, Z.div_1_r. reflexivity.
  - eexists; split; [f_equal; lia|].
    rewrite iter_shr_1_m by (rewrite shr_record_of_loc_m; lia).
    rewrite shr_record_of_loc_m. do 2 f_equal. lia.
  - eexists; split; [f_equal; lia|].
    rewrite shr_record_of_loc_m.
    replace (Z.max _ _ - E) with 0 by lia. rewrite Z.pow_0_r, Z.div_1_r. reflexivity.
Qed.

Lemma round_nearest_even_bounds (m : Z) (l : location) :
  m <= round_nearest_even m l <= m + 1.
Proof. destruct l as [|[]]; cbn; try lia. destruct (Z.even m); lia. Qed.

(** The shape of a rounded non-negative mantissa: one right shift to the
    target exponent, a round-to-nearest-even step, and a renormalisation. *)
Lemma binary_round_aux_spec (sx : bool) (M E : Z) (l : location) :
  0 <= M ->
  exists m1' : Z,
    let e1 := Z.max E (fexp prec emax (Zdigits2 M + E)) in
    let e2 := Z.max e1 (fexp prec emax (Zdigits2 m1' + e1)) in
    M / 2 ^ (e1 - E) <= m1' <= M / 2 ^ (e1 - E) + 1 /\
    binary_round_aux prec emax sx M E l =
      match m1' / 2 ^ (e2 - e1) with
      | Z0 => S754_zero sx
      | Zpos m => if e2 <=? emax - prec then S754_finite sx m e2 else S754_infinity sx
      | Zneg _ => S754_nan
      end.
Proof.
  intros HM. unfold binary_round_aux.
  destruct (shr_fexp_spec M E l HM) as (mrs1 & -> & Hm1).
  set (e1 := Z.max E (fexp prec emax (Zdigits2 M + E))) in *.
  set (m1' := round_nearest_even (shr_m mrs1) (loc_of_shr_record mrs1)).
  pose proof (round_nearest_even_bounds (shr_m mrs1) (loc_of_shr_record mrs1)) as Hr.
  fold m1' in Hr. rewrite Hm1 in Hr.
  assert (0 <= M / 2 ^ (e1 - E)) by (apply Z.div_pos; lia).
  destruct (shr_fexp_spec m1' e1 loc_Exact) as (mrs2 & -> & Hm2); [lia|].
  exists m1'. cbv zeta. split; [exact Hr|]. rewrite Hm2. reflexivity.
Qed.

Lemma is_double_mantissa (s : bool) (m : positive) (e : Z) :
  is_double (S754_finite s m e) = true -> Zpos m < 2 ^ 53.
Proof.
  unfold is_double, valid_binary, bounded, canonical_mantissa.
  intros H. apply andb_prop in H as [H _]. apply Z.eqb_eq in H.
  pose proof (digits2_pos_bounds m) as [_ Hlt].
  eapply Z.lt_le_trans; [exact Hlt|].
  apply Z.pow_le_mono_r; [lia|]. unfold fexp, SpecFloat.emin, prec, emax in H. lia.
Qed.

(** Below one minute the product [totalHours * 3600] is a small Number: its
    floor is an integer between 0 and 128. *)
Lemma floor_mul_3600_small (m : positive) (e : Z) :
  is_double (S754_finite false m e) = true ->
  e <= -58 ->
  exists n : Z,
    0 <= n <= 128 /\
    Math_floor (mul (S754_finite false m e) (of_Z 3600)) = of_Z n.
Proof.
  intros Hv He. apply is_double_mantissa in Hv.
  change (of_Z 3600) with (S754_finite false 7916483719987200 (-41)).
  unfold mul, SFmul. cbn [xorb].
  set (M := Zpos (m * 7916483719987200)). set (E := e + -41).
  assert (HM : 0 < M < 2 ^ 106).
  { unfold M. rewrite Pos2Z.inj_mul. change (2 ^ 106) with (2 ^ 53 * 2 ^ 53). nia. }
  destruct (binary_round_aux_spec false M E loc_Exact) as (m1' & Hb & ->); [lia|].
  cbv zeta in Hb.
  pose proof (Zdigits2_le M 106 ltac:(lia) ltac:(lia)) as Hd.
  pose proof (Zdigits2_gt M ltac:(lia)) as HdM.
  set (d := Zdigits2 M) in *.
  set (e1 := Z.max E (fexp prec emax (d + E))) in *.
  assert (He1 : E <= e1 <= -46 /\ d - 53 <= e1 - E).
  { unfold e1, fexp, SpecFloat.emin, prec, emax, E. lia. }
  set (a := e1 - E) in *.
  assert (Ha : 0 < 2 ^ a) by (apply Z.pow_pos_nonneg; lia).
  assert (Hm1 : 0 <= M / 2 ^ a < 2 ^ 53).
  { split; [apply Z.div_pos; lia|].
    apply Z.div_lt_upper_bound; [lia|].
    rewrite <- Z.pow_add_r by lia.
    eapply Z.lt_le_trans; [exact HdM|]. apply Z.pow_le_mono_r; lia. }
  pose proof (Zdigits2_le m1' 54 ltac:(change (2 ^ 54) with (2 * 2 ^ 53); lia) ltac:(lia)) as Hd'.
  set (e2 := Z.max e1 (fexp prec emax (Zdigits2 m1' + e1))).
  assert (He2 : e1 <= e2 <= -45).
  { unfold e2, fexp, SpecFloat.emin, prec, emax. lia. }
  set (b := - e1) in *.
  assert (Hb2 : 0 < 2 ^ b) by (apply Z.pow_pos_nonneg; lia).
  assert (Hsmall : m1' < 129 * 2 ^ b).
  { assert (M / 2 ^ a < 128 * 2 ^ b); [|lia].
    apply Z.div_lt_upper_bound; [lia|].
    replace (2 ^ a * (128 * 2 ^ b)) with (2 ^ 7 * 2 ^ (a + b))
      by (rewrite Z.pow_add_r by lia; change (2 ^ 7) with 128; ring).
    rewrite <- Z.pow_add_r by lia.
    eapply Z.lt_le_trans; [apply HM|]. apply Z.pow_le_mono_r; lia. }
  assert (Hc : 0 < 2 ^ (e2 - e1)) by (apply Z.pow_pos_nonneg; lia).
  destruct (m1' / 2 ^ (e2 - e1)) as [|p|p] eqn:Hm2.
  - exists 0. split; [lia|reflexivity].
  - assert ((e2 <=? emax - prec) = true) as -> by (apply Z.leb_le; unfold emax, prec; lia).
    exists (floorZ false p e2). split; [|reflexivity].
    unfold floorZ. cbn [cond_Zopp].
    replace (Z.max e2 0) with 0 by lia. replace (Z.max (- e2) 0) with (- e2) by lia.
    rewrite Z.pow_0_r, Z.mul_1_r, <- Hm2, Z.div_div by lia.
    rewrite <- Z.pow_add_r by lia. replace (e2 - e1 + - e2) with b by lia.
    split; [apply Z.div_pos; lia|].
    assert (m1' / 2 ^ b < 129); [|lia].
    apply Z.div_lt_upper_bound; lia.
  - pose proof (Z.div_pos m1' (2 ^ (e2 - e1)) ltac:(lia) Hc). lia.
Qed.

End Rounding.


(** ** The countdown formatter: sample points and the seconds bucket *)

Section Formatter.

Lemma of_Z_0 : of_Z 0 = S754_zero false.
Proof. reflexivity. Qed.

Lemma one_minute : div (of_Z 1) (of_Z 60) = S754_finite false 4803839602528529 (-58).
Proof. vm_compute. reflexivity. Qed.

(** The text of [Math.max(1, n)] for a small integer [n] is its decimal
    numeral: checked value by value. *)
Lemma seconds_text_small (n : Z) :
  0 <= n <= 128 ->
  Number_toString (Math_max (of_Z 1) (of_Z n)) = decimal (Z.max 1 n).
Proof.
  intros Hn.
  assert (Hall : forallb
            (fun k : nat =>
               String.eqb
                 (Number_toString (Math_max (of_Z 1) (of_Z (Z.of_nat k))))
                 (decimal (Z.max 1 (Z.of_nat k))))
            (seq 0 129) = true) by (vm_compute; reflexivity).
  rewrite forallb_forall in Hall.
  specialize (Hall (Z.to_nat n)). rewrite Z2Nat.id in Hall by lia.
  apply String.eqb_eq, Hall, in_seq. lia.
Qed.

Lemma decimal_not_0 (n : Z) : 1 <= n <= 128 -> decimal n +:+ "s" <> "0s".
Proof.
  intros Hn.
  assert (Hall : forallb
            (fun k : nat => negb (String.eqb (decimal (Z.of_nat k) +:+ "s") "0s"))
            (seq 1 128) = true) by (vm_compute; reflexivity).
  rewrite forallb_forall in Hall.
  specialize (Hall (Z.to_nat n)). rewrite Z2Nat.id in Hall by lia.
  intros Heq. apply String.eqb_eq in Heq. rewrite Heq in Hall.
  assert (In (Z.to_nat n) (seq 1 128)) as Hin by (apply in_seq; lia).
  specialize (Hall Hin). discriminate.
Qed.

Lemma below_minute_exponent (m : positive) (e : Z) :
  lt (S754_finite false m e) (div (of_Z 1) (of_Z 60)) = true -> e <= -58.
Proof.
  rewrite one_minute. unfold lt, SFltb, SFcompare.
  destruct (Z.compare_spec e (-58)); [lia|lia|discriminate].
Qed.

(** C2 (as amended): at 1.25 hours the formatter returns "1h 15m", at one
    minute (1/60 hour) "1m 0s", at 200 hours the week+day form "1w 1d"
    (200 is not below 168, so the day+hour bucket does not apply), and for
    every input below zero the single literal "Expired". *)
Theorem formatTimeLeft_sample_points :
  formatTimeLeft (div (of_Z 5) (of_Z 4)) = "1h 15m" /\
  formatTimeLeft (div (of_Z 1) (of_Z 60)) = "1m 0s" /\
  formatTimeLeft (of_Z 200) = "1w 1d" /\
  forall totalHours : Number,
    lt totalHours (of_Z 0) = true -> formatTimeLeft totalHours = "Expired".
Proof.
  split; [vm_compute; reflexivity|].
  split; [vm_compute; reflexivity|].
  split; [vm_compute; reflexivity|].
  intros totalHours Hneg. unfold formatTimeLeft. rewrite Hneg. reflexivity.
Qed.

Lemma formatTimeLeft_sample_points_witness :
  lt (of_Z (-5)) (of_Z 0) = true /\ formatTimeLeft (of_Z (-5)) = "Expired".
Proof.
  split; [vm_compute; reflexivity|].
  apply (proj2 (proj2 (proj2 formatTimeLeft_sample_points))).
  vm_compute. reflexivity.
Defined.

(** C2, the claim as stated fails: 200 hours is rendered in the week+day
    bucket, not as "8d 8h". *)
Lemma formatTimeLeft_200_is_not_8d_8h :
  formatTimeLeft (of_Z 200) = "1w 1d" /\ formatTimeLeft (of_Z 200) <> "8d 8h".
Proof. split; [vm_compute; reflexivity|]. vm_compute. discriminate. Qed.

(** C10: for a Number [0 <= h < 1/60] the formatter returns a seconds-only
    text "Ns" with [N >= 1], never "0s"; at exactly zero it returns "1s"
    (and not "Expired"). *)
Theorem formatTimeLeft_below_minute :
  formatTimeLeft (of_Z 0) = "1s" /\
  forall h : Number,
    is_double h = true ->
    le (of_Z 0) h = true ->
    lt h (div (of_Z 1) (of_Z 60)) = true ->
    exists N : Z,
      1 <= N /\ formatTimeLeft h = decimal N +:+ "s" /\ formatTimeLeft h <> "0s".
Proof.
  split; [vm_compute; reflexivity|].
  intros h Hd Hle Hlt. destruct h as [s|s| |s m e].
  - exists 1. destruct s; (split; [lia|split; vm_compute; [reflexivity|discriminate]]).
  - destruct s; vm_compute in Hle, Hlt; discriminate.
  - discriminate.
  - destruct s; [discriminate|].
    pose proof (below_minute_exponent m e Hlt) as He.
    destruct (floor_mul_3600_small m e Hd He) as (n & Hn & Hfloor).
    assert (Hfmt : formatTimeLeft (S754_finite false m e)
                   = decimal (Z.max 1 n) +:+ "s").
    { unfold formatTimeLeft. rewrite Hlt.
      change (lt (S754_finite false m e) (of_Z 0)) with false. cbv iota zeta.
      rewrite Hfloor, seconds_text_small by lia. reflexivity. }
    exists (Z.max 1 n). rewrite Hfmt. split; [lia|]. split; [reflexivity|].
    apply decimal_not_0. lia.
Qed.

Lemma formatTimeLeft_below_minute_witness :
  exists N : Z,
    1 <= N /\
    formatTimeLeft (div (of_Z 1) (of_Z 7200)) = decimal N +:+ "s" /\
    formatTimeLeft (div (of_Z 1) (of_Z 7200)) <> "0s".
Proof.
  apply (proj2 formatTimeLeft_below_minute); vm_compute; reflexivity.
Defined.

End Formatter.

(** ** The store: projections through the state updates *)

Section StoreFacts.

Lemma filter_sublist_of {A : Type} (p : A -> bool) (l : list A) :
  List.filter p l `sublist_of` l.
Proof.
  induction l as [|x l IH]; cbn; [constructor|].
  destruct (p x); [apply sublist_skip|apply sublist_cons]; exact IH.
Qed.

Lemma filter_none_removed {A : Type} (p : A -> bool) (l : list A) :
  (forall x, In x l -> p x = true) -> List.filter p l = l.
Proof.
  induction l as [|x l IH]; cbn; intros Hall; [reflexivity|].
  rewrite (Hall x) by (left; reflexivity). f_equal. apply IH.
  intros y Hy. apply Hall. right. exact Hy.
Qed.

Lemma existsb_false {A : Type} (p : A -> bool) (l : list A) :
  (forall x, In x l -> p x = false) -> existsb p l = false.
Proof.
  induction l as [|x l IH]; cbn; intros Hall; [reflexivity|].
  rewrite (Hall x) by (left; reflexivity). apply IH.
  intros y Hy. apply Hall. right. exact Hy.
Qed.

Lemma expired_spec (now : Z) (entry : Entry) :
  expired now entry = true <-> exists t, expiration entry = Some t /\ t <= now.
Proof.
  unfold expired. destruct (expiration entry) as [t|].
  - rewrite Z.leb_le. split; [intros H; exists t; auto|].
    intros (t' & [= <-] & H). exact H.
  - split; [discriminate|]. intros (t' & [=] & _).
Qed.

Lemma expired_mono (now now' : Z) (entry : Entry) :
  now' <= now -> expired now' entry = true -> expired now entry = true.
Proof.
  rewrite !expired_spec. intros Hle (t & Ht & Hn). exists t. split; [exact Ht|lia].
Qed.

(** A save either writes the record or logs the failure. *)
Lemma saveToLocalStorage_cases (st : Dispenser) :
  let items := <[storageKey st := Serialized (emailDatabase st)]> (localStorage st) in
  (storageQuota st items = true /\
   saveToLocalStorage st = with_localStorage items st) \/
  (storageQuota st items = false /\
   saveToLocalStorage st = console_error "Error saving to localStorage:" st).
Proof.
  cbv zeta. unfold saveToLocalStorage, setItem.
  destruct (storageQuota st _); auto.
Qed.

Lemma saveToLocalStorage_emailDatabase (st : Dispenser) :
  emailDatabase (saveToLocalStorage st) = emailDatabase st.
Proof. destruct (saveToLocalStorage_cases st) as [[_ ->]|[_ ->]]; reflexivity. Qed.

Lemma saveToLocalStorage_currentEmail (st : Dispenser) :
  currentEmail (saveToLocalStorage st) = currentEmail st.
Proof. destruct (saveToLocalStorage_cases st) as [[_ ->]|[_ ->]]; reflexivity. Qed.

Lemma saveToLocalStorage_lastCheckedMessages (st : Dispenser) :
  lastCheckedMessages (saveToLocalStorage st) = lastCheckedMessages st.
Proof. destruct (saveToLocalStorage_cases st) as [[_ ->]|[_ ->]]; reflexivity. Qed.

Lemma saveToLocalStorage_deviceId (st : Dispenser) :
  deviceId (saveToLocalStorage st) = deviceId st.
Proof. destruct (saveToLocalStorage_cases st) as [[_ ->]|[_ ->]]; reflexivity. Qed.

Lemma saveToLocalStorage_storageQuota (st : Dispenser) :
  storageQuota (saveToLocalStorage st) = storageQuota st.
Proof. destruct (saveToLocalStorage_cases st) as [[_ ->]|[_ ->]]; reflexivity. Qed.

Lemma saveToLocalStorage_page (st : Dispenser) :
  notificationApi (saveToLocalStorage st) = notificationApi st /\
  hasNotificationPermission (saveToLocalStorage st) = hasNotificationPermission st /\
  toasts (saveToLocalStorage st) = toasts st /\
  notifications (saveToLocalStorage st) = notifications st /\
  expirationDialog (saveToLocalStorage st) = expirationDialog st.
Proof. destruct (saveToLocalStorage_cases st) as [[_ ->]|[_ ->]]; cbn; auto. Qed.

Lemma storageKey_saved (st : Dispenser) :
  storageKey (saveToLocalStorage st) = storageKey st.
Proof. unfold storageKey. rewrite saveToLocalStorage_deviceId. reflexivity. Qed.

Lemma saveToLocalStorage_saved_or_logged (st0 st : Dispenser) :
  deviceId st = deviceId st0 -> localStorage st = localStorage st0 ->
  storageQuota st = storageQuota st0 -> console st = console st0 ->
  saved_or_logged st0 (saveToLocalStorage st).
Proof.
  intros Hd Hl Hq Hc. unfold saved_or_logged. cbv zeta.
  rewrite saveToLocalStorage_emailDatabase.
  assert (Hkey : storageKey st0 = storageKey st) by (unfold storageKey; congruence).
  rewrite Hkey, <- Hl, <- Hq, <- Hc.
  destruct (saveToLocalStorage_cases st) as [[Hroom ->]|[Hroom ->]];
    cbv zeta in Hroom; rewrite Hroom; split; reflexivity.
Qed.

Lemma checkExpirations_entries (now : Z) (st : Dispenser) :
  emailDatabase (checkExpirations now st) =
  List.filter (fun entry => negb (expired now entry)) (emailDatabase st).
Proof.
  unfold checkExpirations. destruct (existsb _ _); [|reflexivity].
  apply saveToLocalStorage_emailDatabase.
Qed.

Lemma findIndex_None {A : Type} (p : A -> bool) (l : list A) :
  (forall x, x ∈ l -> p x = false) -> findIndex p l = None.
Proof.
  induction l as [|x l IH]; cbn; intros Hall; [reflexivity|].
  rewrite (Hall x) by left. rewrite IH; [reflexivity|].
  intros y Hy. apply Hall. right. exact Hy.
Qed.

Lemma findIndex_first {A : Type} (p : A -> bool) (l : list A) (i : nat) (x : A) :
  l !! i = Some x -> p x = true ->
  (forall j y, (j < i)%nat -> l !! j = Some y -> p y = false) ->
  findIndex p l = Some i.
Proof.
  revert i. induction l as [|a l IH]; intros [|i] Hi Hp Hfirst; try discriminate.
  - cbn in Hi. injection Hi as ->. cbn. rewrite Hp. reflexivity.
  - cbn in Hi. cbn. rewrite (Hfirst O a) by (reflexivity || lia).
    rewrite (IH i Hi Hp); [reflexivity|].
    intros j y Hj Hy. apply (Hfirst (S j) y); [lia|exact Hy].
Qed.

Lemma alter_messages_addresses (count : nat) (i : nat) (db : list Entry) :
  email <$> alter (with_messages count) i db = email <$> db.
Proof.
  revert i. induction db as [|e db IH]; intros [|i]; cbn; try reflexivity.
  f_equal. apply IH.
Qed.

Lemma setMessageCount_addresses (count : nat) (st : Dispenser) :
  addresses (setMessageCount count st) = addresses st.
Proof.
  unfold setMessageCount, addresses.
  destruct (findIndex _ _); [|reflexivity].
  rewrite saveToLocalStorage_emailDatabase. cbn. apply alter_messages_addresses.
Qed.

Lemma setMessageCount_currentEmail (count : nat) (st : Dispenser) :
  currentEmail (setMessageCount count st) = currentEmail st.
Proof.
  unfold setMessageCount. destruct (findIndex _ _); [|reflexivity].
  rewrite saveToLocalStorage_currentEmail. reflexivity.
Qed.

Lemma setMessageCount_lastChecked (count : nat) (st : Dispenser) :
  lastCheckedMessages (setMessageCount count st) = lastCheckedMessages st.
Proof.
  unfold setMessageCount. destruct (findIndex _ _); [|reflexivity].
  rewrite saveToLocalStorage_lastCheckedMessages. reflexivity.
Qed.

Lemma setMessageCount_page (count : nat) (st : Dispenser) :
  notificationApi (setMessageCount count st) = notificationApi st /\
  hasNotificationPermission (setMessageCount count st) = hasNotificationPermission st /\
  toasts (setMessageCount count st) = toasts st /\
  notifications (setMessageCount count st) = notifications st.
Proof.
  unfold setMessageCount. destruct (findIndex _ _); [|auto].
  match goal with
  | |- context [saveToLocalStorage ?s] =>
      destruct (saveToLocalStorage_page s) as (-> & -> & -> & -> & _)
  end.
  cbn. auto.
Qed.

Lemma setMessageCount_absent (count : nat) (st : Dispenser) :
  (forall e, e ∈ emailDatabase st -> email e <> currentEmail st) ->
  setMessageCount count st = st.
Proof.
  intros Habs. unfold setMessageCount. rewrite findIndex_None; [reflexivity|].
  intros e He. apply String.eqb_neq, Habs, He.
Qed.

(** Raising the notifications of a poll touches neither the entries nor the
    storage nor the seen sets. *)
Lemma notify_all_frame (msgs : list Message) (st : Dispenser) :
  let st' := foldl (fun st msg => showEmailNotification msg st) st msgs in
  emailDatabase st' = emailDatabase st /\
  localStorage st' = localStorage st /\
  lastCheckedMessages st' = lastCheckedMessages st /\
  currentEmail st' = currentEmail st.
Proof.
  revert st. induction msgs as [|msg msgs IH]; intros st; cbn; [auto|].
  specialize (IH (showEmailNotification msg st)). cbn in IH.
  destruct IH as (-> & -> & -> & ->).
  unfold showEmailNotification. destruct (_ || _); auto.
Qed.

End StoreFacts.

(** ** The expiration sweep *)

Section Sweep.

Lemma filter_filter_andb {A : Type} (p q : A -> bool) (l : list A) :
  List.filter p (List.filter q l) = List.filter (fun x => q x && p x) l.
Proof.
  induction l as [|x l IH]; cbn; [reflexivity|].
  destruct (q x); cbn; [destruct (p x)|]; rewrite IH; reflexivity.
Qed.

Lemma expired_max (now now' : Z) (entry : Entry) :
  negb (expired now entry) && negb (expired now' entry) =
  negb (expired (Z.max now now') entry).
Proof.
  unfold expired. destruct (expiration entry) as [t|]; [|reflexivity].
  destruct (Z.leb_spec t now), (Z.leb_spec t now'), (Z.leb_spec t (Z.max now now'));
    cbn; try reflexivity; lia.
Qed.

(** C1 (as amended): [checkExpirations] at [now] removes exactly the entries
    whose expiration is non-null and [<= now] and keeps every other entry, in
    order; a second sweep at the same (or an earlier) [now] changes nothing,
    and a second sweep at any [now'] leaves what one sweep at the later of
    the two times leaves. *)
Theorem checkExpirations_removes_expired (now : Z) (st : Dispenser) :
  let st' := checkExpirations now st in
  (forall entry, entry ∈ emailDatabase st' <->
     entry ∈ emailDatabase st /\
     ~ (exists t, expiration entry = Some t /\ t <= now)) /\
  emailDatabase st' `sublist_of` emailDatabase st /\
  (forall now', now' <= now -> checkExpirations now' st' = st') /\
  (forall now',
     emailDatabase (checkExpirations now' st') =
     emailDatabase (checkExpirations (Z.max now now') st)).
Proof.
  cbv zeta. split; [|split; [|split]].
  - intros entry. rewrite checkExpirations_entries, !list_elem_of_In, filter_In.
    rewrite <- expired_spec. destruct (expired now entry); cbn; intuition congruence.
  - rewrite checkExpirations_entries. apply filter_sublist_of.
  - intros now' Hle.
    assert (Hkept : forall e, In e (emailDatabase (checkExpirations now st)) ->
                              expired now' e = false).
    { intros e He. rewrite checkExpirations_entries in He.
      apply filter_In in He as [_ He].
      destruct (expired now' e) eqn:Hexp; [|reflexivity].
      rewrite (expired_mono now now' e Hle Hexp) in He. discriminate. }
    unfold checkExpirations at 1.
    rewrite (existsb_false _ _ Hkept), filter_none_removed.
    + destruct (checkExpirations now st); reflexivity.
    + intros e He. rewrite (Hkept e He). reflexivity.
  - intros now'. rewrite !checkExpirations_entries, filter_filter_andb.
    apply filter_ext. intros entry. apply expired_max.
Qed.

Lemma checkExpirations_removes_expired_witness :
  let st := with_emailDatabase
              [sample_entry "a@x.com" (Some 5); sample_entry "b@x.com" None]
              (fresh "device") in
  checkExpirations 3 (checkExpirations 3 st) = checkExpirations 3 st.
Proof.
  cbv zeta.
  apply (proj1 (proj2 (proj2 (checkExpirations_removes_expired 3 _)))). lia.
Defined.

(** C1, the claim as stated fails for a later [now]: an entry expiring at 5
    survives the sweep at 3 and is removed by the second sweep at 7. *)
Lemma checkExpirations_later_now_removes_more :
  let st := with_emailDatabase [sample_entry "a@x.com" (Some 5)] (fresh "device") in
  emailDatabase (checkExpirations 3 st) = [sample_entry "a@x.com" (Some 5)] /\
  emailDatabase (checkExpirations 7 (checkExpirations 3 st)) = [] /\
  checkExpirations 7 (checkExpirations 3 st) <> checkExpirations 3 st.
Proof.
  cbv zeta. split; [reflexivity|]. split; [reflexivity|].
  intros Heq. apply (f_equal emailDatabase) in Heq. discriminate.
Qed.

End Sweep.

(** ** Committing with a custom duration *)

Section Commit.

(** C3: a custom magnitude that is non-numeric ([NaN]), zero or negative is
    rejected with the error toast, and neither the entry collection nor the
    persisted state (nor the dialog) changes; in particular for 0 and -5. *)
Theorem saveCustomExpiration_rejects (time unit : Number) (now : Z) (st : Dispenser) :
  truthy time = false \/ le time (of_Z 0) = true ->
  exists st',
    saveCustomExpiration time unit now st = Normal st' /\
    emailDatabase st' = emailDatabase st /\
    localStorage st' = localStorage st /\
    expirationDialog st' = expirationDialog st /\
    toasts st' =
      toasts st ++ [{| toast_message := "Please enter a valid time";
                       toast_type := error |}].
Proof.
  intros Hbad. unfold saveCustomExpiration.
  assert (negb (truthy time) || le time (of_Z 0) = true) as ->.
  { destruct Hbad as [-> | ->]; [reflexivity|apply orb_true_r]. }
  eexists. split; [reflexivity|]. cbn. auto.
Qed.

Lemma saveCustomExpiration_rejects_witness :
  exists st',
    saveCustomExpiration (of_Z (-5)) (of_Z 24) 1000 (fresh "device") = Normal st' /\
    emailDatabase st' = [] /\
    localStorage st' = ∅ /\
    expirationDialog st' = false /\
    toasts st' =
      [{| toast_message := "Please enter a valid time"; toast_type := error |}].
Proof.
  apply (saveCustomExpiration_rejects (of_Z (-5)) (of_Z 24) 1000 (fresh "device")).
  right. vm_compute. reflexivity.
Defined.

Example custom_magnitudes_rejected :
  (truthy NaN = false) /\ le (of_Z 0) (of_Z 0) = true /\
  le (of_Z (-5)) (of_Z 0) = true /\ truthy (S754_zero true) = false.
Proof. vm_compute. auto. Qed.

End Commit.

(** ** Restoring from storage *)

Section Restore.

(** C4: [loadFromLocalStorage] returns normally on every persisted value
    (absent, empty, the serialization of a collection, a text that does not
    parse, or JSON for something else), and when the stored text does not
    parse the entry collection is empty. *)
Theorem loadFromLocalStorage_never_raises (st : Dispenser) :
  (exists restored, loadFromLocalStorage st = Normal restored) /\
  (forall text,
     localStorage st !! storageKey st = Some (Unparseable text) ->
     exists st',
       loadFromLocalStorage st = Normal (Restored_entries st') /\
       emailDatabase st' = []).
Proof.
  unfold loadFromLocalStorage. split.
  - destruct (localStorage st !! storageKey st) as [[db|text|value]|]; cbn.
    + eexists; reflexivity.
    + destruct text; cbn; eexists; reflexivity.
    + eexists; reflexivity.
    + eexists; reflexivity.
  - intros text ->. destruct text; cbn; eexists; split; reflexivity.
Qed.

Lemma loadFromLocalStorage_never_raises_witness :
  let st := with_localStorage
              {[ "emailDatabase_device" := Unparseable "[{oops" ]}
              (with_emailDatabase [sample_entry "a@x.com" None] (fresh "device")) in
  exists st',
    loadFromLocalStorage st = Normal (Restored_entries st') /\ emailDatabase st' = [].
Proof.
  cbv zeta.
  eapply (proj2 (loadFromLocalStorage_never_raises _)).
  apply lookup_singleton_eq.
Defined.

End Restore.

(** ** Recording message counts *)

Section MessageCount.

Lemma alter_at {A : Type} (f : A -> A) (l : list A) (i : nat) (x : A) :
  l !! i = Some x -> alter f i l = <[i := f x]> l.
Proof.
  revert i. induction l as [|a l IH]; intros [|i] Hi; try discriminate; cbn in *.
  - injection Hi as ->. reflexivity.
  - f_equal. apply IH, Hi.
Qed.

Lemma setMessageCount_found (count : nat) (st : Dispenser) (i : nat) (e : Entry) :
  emailDatabase st !! i = Some e ->
  email e = currentEmail st ->
  (forall j e', (j < i)%nat -> emailDatabase st !! j = Some e' ->
                email e' <> currentEmail st) ->
  setMessageCount count st =
  saveToLocalStorage
    (with_emailDatabase (<[i := with_messages count e]> (emailDatabase st)) st).
Proof.
  intros Hi He Hfirst. unfold setMessageCount.
  rewrite (findIndex_first _ _ i e Hi).
  - rewrite (alter_at _ _ _ _ Hi). reflexivity.
  - apply String.eqb_eq, He.
  - intros j e' Hj He'. apply String.eqb_neq. eauto.
Qed.

Lemma checkMail_fetched_entries
    (silent : bool) (msgs : list Message) (st : Dispenser) :
  currentEmail st <> "" ->
  exists st',
    checkMail silent (Body msgs) st = Normal st' /\
    emailDatabase st' = emailDatabase (setMessageCount (length msgs) st) /\
    localStorage st' = localStorage (setMessageCount (length msgs) st).
Proof.
  intros Hsel. unfold checkMail. apply String.eqb_neq in Hsel. rewrite Hsel.
  cbn [await_json mbind Completion_bind try_catch].
  eexists. split; [reflexivity|].
  match goal with
  | |- context [foldl ?f ?s ?l] =>
      pose proof (notify_all_frame l s) as (-> & -> & _)
  end.
  split; reflexivity.
Qed.

(** C5: [updateMessageCount] sets [messages] to [count] on the (first)
    entry whose address is the selected one, leaves the other fields of that
    entry and every other entry as they are, and saves the collection: the
    record is rewritten from it, or the exception of [setItem] is logged.
    The count update inside [checkMail] does the same with the number of
    fetched messages.  When no entry has the selected address,
    [updateMessageCount] returns with the whole state as it is, and
    [checkMail] leaves the entries and the storage as they are. *)
Theorem updateMessageCount_spec (count : nat) (st : Dispenser) :
  (forall i e,
     emailDatabase st !! i = Some e ->
     email e = currentEmail st ->
     (forall j e', (j < i)%nat -> emailDatabase st !! j = Some e' ->
                   email e' <> currentEmail st) ->
     let st' := updateMessageCount count st in
     (exists e',
        emailDatabase st' !! i = Some e' /\
        messages e' = count /\
        email e' = email e /\ date e' = date e /\ expiration e' = expiration e) /\
     (forall j, j <> i -> emailDatabase st' !! j = emailDatabase st !! j) /\
     length (emailDatabase st') = length (emailDatabase st) /\
     emailDatabase st' = <[i := with_messages count e]> (emailDatabase st) /\
     saved_or_logged st st' /\
     (forall silent msgs,
        currentEmail st <> "" ->
        exists st'' e'',
          checkMail silent (Body msgs) st = Normal st'' /\
          emailDatabase st'' !! i = Some e'' /\
          messages e'' = length msgs /\
          email e'' = email e /\ date e'' = date e /\
          expiration e'' = expiration e)) /\
  ((forall e, e ∈ emailDatabase st -> email e <> currentEmail st) ->
   updateMessageCount count st = st /\
   forall silent reply,
     exists st',
       checkMail silent reply st = Normal st' /\
       emailDatabase st' = emailDatabase st /\
       localStorage st' = localStorage st).
Proof.
  split.
  - intros i e Hi He Hfirst. cbv zeta. unfold updateMessageCount.
    assert (Hlen : (i < length (emailDatabase st))%nat)
      by (apply lookup_lt_is_Some; eauto).
    assert (Hdb : forall c,
               emailDatabase (setMessageCount c st) =
               <[i := with_messages c e]> (emailDatabase st)).
    { intros c. rewrite (setMessageCount_found c st i e Hi He Hfirst).
      rewrite saveToLocalStorage_emailDatabase. reflexivity. }
    split; [|split; [|split; [|split; [|split]]]].
    + exists (with_messages count e). rewrite Hdb.
      split; [apply list_lookup_insert_eq, Hlen|]. cbn. auto.
    + intros j Hne. rewrite Hdb. apply list_lookup_insert_ne. auto.
    + rewrite Hdb. apply length_insert.
    + apply Hdb.
    + rewrite (setMessageCount_found count st i e Hi He Hfirst).
      apply saveToLocalStorage_saved_or_logged; reflexivity.
    + intros silent msgs Hsel.
      destruct (checkMail_fetched_entries silent msgs st Hsel)
        as (st'' & Hrun & Hentries & _).
      exists st'', (with_messages (length msgs) e). split; [exact Hrun|].
      rewrite Hentries, Hdb.
      split; [apply list_lookup_insert_eq, Hlen|]. cbn. auto.
  - intros Habs. split; [apply setMessageCount_absent, Habs|].
    intros silent reply. unfold checkMail.
    destruct (String.eqb (currentEmail st) "").
    { destruct silent; eexists; split; try reflexivity; cbn; auto. }
    destruct reply as [|status| |messages];
      try solve [destruct silent; (eexists; split; [reflexivity|cbn; auto])].
    cbn [await_json mbind Completion_bind try_catch].
    rewrite (setMessageCount_absent _ _ Habs).
    eexists. split; [reflexivity|].
    match goal with
    | |- context [foldl ?f ?s ?l] =>
        pose proof (notify_all_frame l s) as (-> & -> & _)
    end.
    cbn. auto.
Qed.

Lemma updateMessageCount_spec_witness :
  let st := with_currentEmail "b@x.com"
              (with_emailDatabase
                 [sample_entry "a@x.com" None; sample_entry "b@x.com" (Some 9)]
                 (fresh "device")) in
  (exists e',
     emailDatabase (updateMessageCount 3 st) !! 1%nat = Some e' /\
     messages e' = 3%nat /\
     email e' = "b@x.com" /\ date e' = 0 /\ expiration e' = Some 9) /\
  emailDatabase (updateMessageCount 3 st) !! 0%nat = Some (sample_entry "a@x.com" None) /\
  saved_or_logged st (updateMessageCount 3 st) /\
  saved_or_logged (without_room st) (updateMessageCount 3 (without_room st)) /\
  updateMessageCount 3 (with_currentEmail "gone@x.com" st) =
    with_currentEmail "gone@x.com" st.
Proof.
  cbv zeta.
  set (st := with_currentEmail "b@x.com"
               (with_emailDatabase
                  [sample_entry "a@x.com" None; sample_entry "b@x.com" (Some 9)]
                  (fresh "device"))).
  assert (Hfirst : forall s, emailDatabase s = emailDatabase st ->
            currentEmail s = "b@x.com" ->
            forall j e', (j < 1)%nat -> emailDatabase s !! j = Some e' ->
                         email e' <> currentEmail s).
  { intros s Hdb Hcur [|j] e' Hj He'; [|lia].
    rewrite Hdb in He'. injection He' as <-. rewrite Hcur. discriminate. }
  destruct (proj1 (updateMessageCount_spec 3 st) 1%nat
              (sample_entry "b@x.com" (Some 9)) eq_refl eq_refl
              (Hfirst st eq_refl eq_refl))
    as (Hset & Hrest & _ & _ & Hsaved & _).
  destruct (proj1 (updateMessageCount_spec 3 (without_room st)) 1%nat
              (sample_entry "b@x.com" (Some 9)) eq_refl eq_refl
              (Hfirst (without_room st) eq_refl eq_refl))
    as (_ & _ & _ & _ & Hlogged & _).
  split; [exact Hset|]. split; [exact (Hrest 0%nat ltac:(lia))|].
  split; [exact Hsaved|]. split; [exact Hlogged|].
  apply (proj2 (updateMessageCount_spec 3 _)).
  intros e He. cbn in He.
  apply elem_of_cons in He as [->|He]; [discriminate|].
  apply elem_of_cons in He as [->|He]; [discriminate|].
  apply elem_of_nil in He. contradiction.
Defined.

(** On a storage without room the count is set in memory, the record stays
    as it was and the failure is on the console. *)
Example updateMessageCount_without_room :
  let st := without_room
              (with_currentEmail "b@x.com"
                 (with_emailDatabase [sample_entry "b@x.com" (Some 9)]
                    (fresh "device"))) in
  emailDatabase (updateMessageCount 3 st) =
    [with_messages 3 (sample_entry "b@x.com" (Some 9))] /\
  localStorage (updateMessageCount 3 st) = ∅ /\
  console (updateMessageCount 3 st) = ["Error saving to localStorage:"].
Proof. cbv zeta. split; [reflexivity|]. split; reflexivity. Qed.

End MessageCount.

(** ** Generating an address *)

Section Generate.

(** C6 (as amended): when the remote call fails (rejected [fetch], non-OK
    status, unparseable body) the failure toast is shown and the entries, the
    storage and the selection are untouched; when the call returns a
    non-array or an empty array nothing at all happens: the state is
    untouched and no failure is shown. *)
Theorem generateNewEmail_failures (reply : Fetched MailboxData) (st : Dispenser) :
  (forall err,
     await_json reply = Throw err ->
     exists st',
       generateNewEmail reply st = Normal st' /\
       toasts st' =
         toasts st ++ [{| toast_message := "Failed to generate email";
                          toast_type := error |}] /\
       emailDatabase st' = emailDatabase st /\
       localStorage st' = localStorage st /\
       currentEmail st' = currentEmail st) /\
  (reply = Body NotArray \/ reply = Body (Array []) ->
   generateNewEmail reply st = Normal st).
Proof.
  split.
  - intros err Hfail. unfold generateNewEmail. rewrite Hfail. cbn.
    eexists. split; [reflexivity|]. cbn. auto.
  - intros [-> | ->]; reflexivity.
Qed.

Lemma generateNewEmail_failures_witness :
  (exists st',
     generateNewEmail (HttpFailure 503) (fresh "device") = Normal st' /\
     toasts st' =
       [{| toast_message := "Failed to generate email"; toast_type := error |}] /\
     emailDatabase st' = [] /\ localStorage st' = ∅ /\ currentEmail st' = "") /\
  generateNewEmail (Body NotArray) (fresh "device") = Normal (fresh "device").
Proof.
  split.
  - apply (proj1 (generateNewEmail_failures (HttpFailure 503) (fresh "device"))
             (HttpError 503)).
    reflexivity.
  - apply (proj2 (generateNewEmail_failures (Body NotArray) (fresh "device"))).
    left. reflexivity.
Defined.

(** C6, the claim as stated fails: an empty result surfaces no failure. *)
Lemma generateNewEmail_empty_result_is_silent :
  generateNewEmail (Body (Array [])) (fresh "device") = Normal (fresh "device") /\
  toasts (fresh "device") = [].
Proof. split; reflexivity. Qed.

End Generate.

(** ** The notification delta of a poll *)

Section Poll.

Lemma filterNewMessages_ids (messages : list Message) (st : Dispenser) (x : Z) :
  x ∈ id <$> filterNewMessages messages st <->
  x ∈ id <$> messages /\ x ∉ lastChecked st.
Proof.
  unfold filterNewMessages. rewrite !list_elem_of_fmap. split.
  - intros (msg & -> & Hin). apply list_elem_of_In, filter_In in Hin as [Hin Hnew].
    apply negb_true_iff, bool_decide_eq_false in Hnew.
    split; [|exact Hnew]. exists msg. split; [reflexivity|].
    apply list_elem_of_In, Hin.
  - intros [(msg & -> & Hin) Hnew]. exists msg. split; [reflexivity|].
    apply list_elem_of_In, filter_In. split; [apply list_elem_of_In, Hin|].
    apply negb_true_iff, bool_decide_eq_false, Hnew.
Qed.

Lemma notify_all_raised (msgs : list Message) (st : Dispenser) :
  raised st msgs (foldl (fun st msg => showEmailNotification msg st) st msgs).
Proof.
  unfold raised. revert st. induction msgs as [|msg msgs IH]; intros st.
  - cbn. destruct (_ || _); rewrite app_nil_r; auto.
  - cbn [foldl]. specialize (IH (showEmailNotification msg st)).
    unfold showEmailNotification in *.
    destruct (negb (notificationApi st) || negb (hasNotificationPermission st)) eqn:Hmode;
      cbn in IH; rewrite Hmode in IH; destruct IH as [-> ->];
      rewrite fmap_cons, <- app_assoc; auto.
Qed.

(** C7: a poll of the selected address that fetches [messages] notifies
    exactly the messages whose ids are in the fetched id set [F] and not in
    the prior SeenSet [S], and then stores [F] itself as the SeenSet of that
    address (the other addresses keep theirs). *)
Theorem checkMail_notification_delta
    (silent : bool) (messages : list Message) (st : Dispenser) :
  currentEmail st <> "" ->
  let S := lastChecked st in
  let F : gset Z := list_to_set (id <$> messages) in
  let newMessages := filterNewMessages messages st in
  list_to_set (id <$> newMessages) = F ∖ S /\
  exists st',
    checkMail silent (Body messages) st = Normal st' /\
    raised st newMessages st' /\
    lastCheckedMessages st' = <[currentEmail st := F]> (lastCheckedMessages st) /\
    lastChecked st' = F.
Proof.
  intros Hsel. cbv zeta. split.
  - apply set_eq. intros x.
    rewrite elem_of_difference, !elem_of_list_to_set. apply filterNewMessages_ids.
  - unfold checkMail. apply String.eqb_neq in Hsel. rewrite Hsel.
    cbn [await_json mbind Completion_bind try_catch].
    eexists. split; [reflexivity|].
    pose proof (setMessageCount_currentEmail (length messages) st) as Hcur.
    pose proof (setMessageCount_lastChecked (length messages) st) as Hseen.
    pose proof (setMessageCount_page (length messages) st) as (Hapi & Hperm & Htoasts & Hnotes).
    generalize dependent (setMessageCount (length messages) st). intros st1 **.
    assert (Hnew : filterNewMessages messages st1 = filterNewMessages messages st).
    { unfold filterNewMessages, lastChecked. rewrite Hcur, Hseen. reflexivity. }
    rewrite Hnew, Hcur, Hseen.
    pose proof (notify_all_raised (filterNewMessages messages st)
                  (with_lastCheckedMessages
                     (<[currentEmail st := list_to_set (id <$> messages)]>
                        (lastCheckedMessages st)) st1)) as Hraised.
    pose proof (notify_all_frame (filterNewMessages messages st)
                  (with_lastCheckedMessages
                     (<[currentEmail st := list_to_set (id <$> messages)]>
                        (lastCheckedMessages st)) st1)) as Hframe.
    cbv zeta in Hframe. destruct Hframe as (_ & _ & Hseen' & Hcur').
    split; [|split].
    + unfold raised in *. cbn in Hraised.
      rewrite Hapi, Hperm, Htoasts, Hnotes, Hcur in Hraised. exact Hraised.
    + rewrite Hseen'. reflexivity.
    + unfold lastChecked. rewrite Hseen', Hcur'. cbn.
      rewrite Hcur, lookup_insert_eq. reflexivity.
Qed.

Lemma checkMail_notification_delta_witness :
  let st := sample_poll (fresh "device") in
  let messages := [sample_message 2; sample_message 3; sample_message 4] in
  list_to_set (id <$> filterNewMessages messages st) = ({[ 3; 4 ]} : gset Z) /\
  exists st',
    checkMail true (Body messages) st = Normal st' /\
    lastChecked st' = ({[ 2; 3; 4 ]} : gset Z).
Proof.
  cbv zeta.
  destruct (checkMail_notification_delta true
              [sample_message 2; sample_message 3; sample_message 4]
              (sample_poll (fresh "device")))
    as (Hdelta & st' & Hrun & _ & _ & Hseen); [discriminate|].
  assert (Hprior : lastChecked (sample_poll (fresh "device")) = ({[ 1; 2 ]} : gset Z)).
  { unfold lastChecked, sample_poll. cbn. rewrite lookup_singleton_eq. reflexivity. }
  split.
  - rewrite Hdelta, Hprior. cbn. set_solver.
  - exists st'. split; [exact Hrun|]. rewrite Hseen. cbn. set_solver.
Defined.

End Poll.

(** ** Clearing the history *)

Section Clear.

(** C8 (as amended): a confirmed [clearDatabase] empties the entry
    collection and removes the persisted record ([localStorage.removeItem]);
    no empty collection is written.  Restoring afterwards yields the empty
    collection; a declined [confirm] changes nothing. *)
Theorem clearDatabase_removes_record (st : Dispenser) :
  let st' := clearDatabase true st in
  emailDatabase st' = [] /\
  localStorage st' = delete (storageKey st) (localStorage st) /\
  localStorage st' !! storageKey st' = None /\
  (exists st'',
     loadFromLocalStorage st' = Normal (Restored_entries st'') /\
     emailDatabase st'' = []) /\
  clearDatabase false st = st.
Proof.
  cbv zeta. split; [reflexivity|]. split; [reflexivity|].
  assert (Hgone : localStorage (clearDatabase true st)
                    !! storageKey (clearDatabase true st) = None)
    by apply lookup_delete_eq.
  split; [exact Hgone|]. split; [|reflexivity].
  unfold loadFromLocalStorage. rewrite Hgone. cbn. eexists. split; reflexivity.
Qed.

(** C8, the claim as stated fails: after clearing a persisted collection the
    record is absent; it does not hold an empty collection. *)
Lemma clearDatabase_writes_no_empty_collection :
  let st := saveToLocalStorage
              (with_emailDatabase [sample_entry "a@x.com" None] (fresh "device")) in
  localStorage st !! storageKey st = Some (Serialized [sample_entry "a@x.com" None]) /\
  localStorage (clearDatabase true st) !! storageKey st = None /\
  localStorage (clearDatabase true st) !! storageKey st <> Some (Serialized []).
Proof.
  cbv zeta. split; [apply lookup_insert_eq|].
  match goal with
  | |- ?stored = None /\ _ =>
      assert (Hgone : stored = None) by apply lookup_delete_eq
  end.
  split; [exact Hgone|]. rewrite Hgone. discriminate.
Qed.

End Clear.

(** ** Uniqueness of addresses *)

Section Unique.

Lemma saveEmailWithExpiration_addresses
    (hours : option Number) (now : Z) (st st' : Dispenser) :
  saveEmailWithExpiration hours now st = Normal st' ->
  addresses st' = addresses st ++ [currentEmail st].
Proof.
  unfold saveEmailWithExpiration.
  destruct hours as [h|]; [destruct (truthy h)|];
    try (destruct (toISOString _) as [t|err]; [|discriminate]);
    cbn [mbind Completion_bind]; intros [= <-];
    unfold addresses;
    cbn [emailDatabase showToast with_toasts with_expirationDialog];
    rewrite saveToLocalStorage_emailDatabase;
    exact (fmap_snoc email (emailDatabase st) _).
Qed.

Lemma apply_op_unique (op : StoreOp) (st st' : Dispenser) :
  NoDup (addresses st) ->
  (forall address hours now,
     op = Commit address hours now -> address ∉ addresses st) ->
  apply_op op st = Normal st' ->
  NoDup (addresses st').
Proof.
  intros Huniq Hfresh Hrun.
  destruct op as [address hours now|address count|now|index|]; cbn in Hrun.
  - apply saveEmailWithExpiration_addresses in Hrun. rewrite Hrun. cbn.
    apply NoDup_app. split; [exact Huniq|]. split; [|apply NoDup_singleton].
    intros x Hx Hin. apply list_elem_of_singleton in Hin as ->.
    exact (Hfresh address hours now eq_refl Hx).
  - injection Hrun as <-. unfold updateMessageCount.
    rewrite setMessageCount_addresses. exact Huniq.
  - injection Hrun as <-. unfold addresses. rewrite checkExpirations_entries.
    eapply sublist_NoDup; [exact Huniq|].
    apply fmap_sublist, filter_sublist_of.
  - injection Hrun as <-.
    eapply sublist_NoDup; [exact Huniq|].
    apply fmap_sublist. cbn. rewrite saveToLocalStorage_emailDatabase.
    apply sublist_delete.
  - injection Hrun as <-. apply NoDup_nil_2.
Qed.

(** C9 (as amended): along every sequence of store operations in which each
    commit is for an address that is not already among the live entries,
    the addresses of the live entries stay pairwise distinct.  A commit
    itself never looks for an existing address: it appends its address to
    the live ones whatever they are. *)
Theorem addresses_unique_preserved (st st' : Dispenser) :
  (NoDup (addresses st) -> rtc step st st' -> NoDup (addresses st')) /\
  (forall address hours now,
     apply_op (Commit address hours now) st = Normal st' ->
     addresses st' = addresses st ++ [address]).
Proof.
  split.
  - intros Huniq Hsteps. induction Hsteps as [st|st st1 st2 Hstep _ IH].
    + exact Huniq.
    + apply IH. destruct Hstep as [op st st1 Hfresh Hrun].
      exact (apply_op_unique op st st1 Huniq Hfresh Hrun).
  - intros address hours now Hrun. cbn in Hrun.
    apply saveEmailWithExpiration_addresses in Hrun. exact Hrun.
Qed.

Lemma addresses_unique_preserved_witness :
  exists st',
    run [Commit "a@x.com" None 10; Commit "b@x.com" None 20; Delete 0]
        (fresh "device") = Normal st' /\
    NoDup (addresses st').
Proof.
  eexists. split; [reflexivity|].
  eapply (proj1 (addresses_unique_preserved (fresh "device") _)); [apply NoDup_nil_2|].
  eapply rtc_l.
  { apply (step_op (Commit "a@x.com" None 10)); [|reflexivity].
    intros address hours now _. apply not_elem_of_nil. }
  eapply rtc_l.
  { apply (step_op (Commit "b@x.com" None 20)); [|reflexivity].
    intros address hours now [= <- _ _] Hin. cbn in Hin.
    apply list_elem_of_singleton in Hin. discriminate. }
  eapply rtc_l; [|apply rtc_refl].
  apply (step_op (Delete 0)); [|reflexivity]. discriminate.
Defined.

(** C9, the claim as stated fails: committing the address of a live entry
    again appends a second entry with the same address. *)
Lemma commit_existing_address_duplicates :
  exists st',
    run [Commit "a@x.com" None 10; Commit "a@x.com" None 20] (fresh "device")
      = Normal st' /\
    addresses st' = ["a@x.com"; "a@x.com"]%string /\
    ~ NoDup (addresses st').
Proof.
  eexists. split; [reflexivity|]. split; [reflexivity|].
  cbn. intros Hdup. apply NoDup_cons in Hdup as [Hnotin _].
  apply Hnotin. left.
Qed.

End Unique.

(** ** Persistence across the events of the page *)

Section Persistence.

Lemma restorable_iff (st : Dispenser) :
  restorable st <-> persisted st = emailDatabase st /\ ~ foreign_record st.
Proof.
  unfold restorable, persisted, foreign_record, loadFromLocalStorage.
  destruct (localStorage st !! storageKey st) as [[db|text|value]|]; cbn.
  - split.
    + intros (st' & [= <-] & H). split; [exact H|]. intros (v & [=]).
    + intros [H _]. eexists. split; [reflexivity|exact H].
  - destruct text; cbn;
      (split;
       [intros (st' & [= <-] & H); split; [exact H|intros (v & [=])]
       |intros [H _]; eexists; split; [reflexivity|exact H]]).
  - split; [intros (st' & [=] & _)|]. intros [_ H]. exfalso. apply H. eauto.
  - split.
    + intros (st' & [= <-] & H). split; [exact H|]. intros (v & [=]).
    + intros [H _]. eexists. split; [reflexivity|exact H].
Qed.

(** A state whose record was just written from its collection is
    restorable. *)
Lemma restorable_written (st st' : Dispenser) :
  deviceId st' = deviceId st ->
  localStorage st' =
    <[storageKey st := Serialized (emailDatabase st')]> (localStorage st) ->
  restorable st'.
Proof.
  intros Hd Hl. apply restorable_iff. unfold persisted, foreign_record.
  assert (Hkey : storageKey st' = storageKey st) by (unfold storageKey; congruence).
  rewrite Hkey, Hl, lookup_insert_eq. split; [reflexivity|]. intros (v & [=]).
Qed.

Lemma persisted_frame (st st' : Dispenser) :
  deviceId st' = deviceId st ->
  localStorage st' = localStorage st ->
  persisted st' = persisted st.
Proof. unfold persisted, storageKey. intros -> ->. reflexivity. Qed.

Lemma foreign_record_frame (st st' : Dispenser) :
  deviceId st' = deviceId st ->
  localStorage st' = localStorage st ->
  foreign_record st' <-> foreign_record st.
Proof. unfold foreign_record, storageKey. intros -> ->. reflexivity. Qed.

Lemma save_errors_ext (st st' : Dispenser) :
  console st' = console st -> save_errors st' = save_errors st.
Proof. unfold save_errors. intros ->. reflexivity. Qed.

Lemma save_errors_console_error (line : string) (st : Dispenser) :
  save_errors (console_error line st) =
  (save_errors st +
   if String.eqb "Error saving to localStorage:" line then 1 else 0)%nat.
Proof.
  unfold save_errors, console_error. cbn [console with_console].
  rewrite List.filter_app, length_app. cbn [List.filter].
  destruct (String.eqb _ line); reflexivity.
Qed.

Lemma save_errors_other (line : string) (st st' : Dispenser) :
  String.eqb "Error saving to localStorage:" line = false ->
  console st' = console (console_error line st) ->
  save_errors st' = save_errors st.
Proof.
  intros Hline Hc. rewrite (save_errors_ext _ _ Hc), save_errors_console_error, Hline.
  lia.
Qed.

Lemma same_outside_record_refl (st : Dispenser) : same_outside_record st st.
Proof. split; auto. Qed.

Lemma same_outside_record_trans (st1 st2 st3 : Dispenser) :
  same_outside_record st1 st2 -> same_outside_record st2 st3 ->
  same_outside_record st1 st3.
Proof.
  intros [Hd1 Hk1] [Hd2 Hk2]. split; [congruence|].
  intros key Hkey. rewrite Hk2, Hk1; auto.
  unfold storageKey in *. rewrite Hd1. exact Hkey.
Qed.

Lemma notify_all_device (msgs : list Message) (st : Dispenser) :
  deviceId (foldl (fun st msg => showEmailNotification msg st) st msgs) = deviceId st.
Proof.
  revert st. induction msgs as [|msg msgs IH]; intros st; cbn; [reflexivity|].
  rewrite IH. unfold showEmailNotification. destruct (_ || _); reflexivity.
Qed.

Lemma notify_all_host (msgs : list Message) (st : Dispenser) :
  let st' := foldl (fun st msg => showEmailNotification msg st) st msgs in
  storageQuota st' = storageQuota st /\ console st' = console st.
Proof.
  revert st. induction msgs as [|msg msgs IH]; intros st; cbn; [auto|].
  specialize (IH (showEmailNotification msg st)). cbn in IH.
  destruct IH as (-> & ->).
  unfold showEmailNotification. destruct (_ || _); auto.
Qed.

(** The state a successful commit leaves. *)
Lemma saveEmailWithExpiration_state
    (hours : option Number) (now : Z) (st st' : Dispenser) :
  saveEmailWithExpiration hours now st = Normal st' ->
  exists entry text,
    st' = showToast text success
            (with_expirationDialog false
               (saveToLocalStorage
                  (with_emailDatabase (emailDatabase st ++ [entry]) st))) /\
    email entry = currentEmail st /\ date entry = now /\ messages entry = O /\
    (hours = None \/ (exists h, hours = Some h /\ truthy h = false) ->
     expiration entry = None /\ text = "Email saved without expiration").
Proof.
  unfold saveEmailWithExpiration.
  destruct hours as [h|]; [destruct (truthy h) eqn:Htruthy|].
  - destruct (toISOString _) as [t|err]; cbn [mbind Completion_bind]; [|discriminate].
    intros [= <-]. eexists _, _. split; [reflexivity|]. cbn.
    repeat (split; [reflexivity|]).
    intros [[=]|(h' & [= <-] & Hf)]. congruence.
  - cbn [mbind Completion_bind]. intros [= <-]. eexists _, _.
    split; [reflexivity|]. cbn. auto.
  - cbn [mbind Completion_bind]. intros [= <-]. eexists _, _.
    split; [reflexivity|]. cbn. auto.
Qed.

(** What a successful commit leaves: one more entry at the end, and a save
    of the collection. *)
Lemma saveEmailWithExpiration_result
    (hours : option Number) (now : Z) (st st' : Dispenser) :
  saveEmailWithExpiration hours now st = Normal st' ->
  exists entry,
    emailDatabase st' = emailDatabase st ++ [entry] /\
    email entry = currentEmail st /\ date entry = now /\ messages entry = O /\
    (hours = None \/ (exists h, hours = Some h /\ truthy h = false) ->
     expiration entry = None) /\
    saved_or_logged st st' /\
    deviceId st' = deviceId st /\
    currentEmail st' = currentEmail st /\
    lastCheckedMessages st' = lastCheckedMessages st /\
    expirationDialog st' = false.
Proof.
  intros Hrun.
  apply saveEmailWithExpiration_state in Hrun
    as (entry & text & -> & Haddr & Hdate & Hcount & Hexp).
  exists entry.
  assert (Hsaved : saved_or_logged st
            (saveToLocalStorage (with_emailDatabase (emailDatabase st ++ [entry]) st)))
    by (apply saveToLocalStorage_saved_or_logged; reflexivity).
  cbn [emailDatabase showToast with_toasts with_expirationDialog deviceId
       currentEmail lastCheckedMessages expirationDialog].
  rewrite saveToLocalStorage_emailDatabase, saveToLocalStorage_deviceId,
    saveToLocalStorage_currentEmail, saveToLocalStorage_lastCheckedMessages.
  cbn. repeat (split; [assumption || reflexivity|]).
  split; [intros H; apply Hexp, H|].
  split; [|auto].
  unfold saved_or_logged in *. cbv zeta in *.
  cbn [emailDatabase localStorage console showToast with_toasts with_expirationDialog].
  exact Hsaved.
Qed.

Lemma setMessageCount_cases (count : nat) (st : Dispenser) :
  setMessageCount count st = st \/
  exists db,
    setMessageCount count st = saveToLocalStorage (with_emailDatabase db st) /\
    (forall address, manual address st -> manual address (with_emailDatabase db st)).
Proof.
  unfold setMessageCount. destruct (findIndex _ _) as [index|]; [right|left; reflexivity].
  eexists. split; [reflexivity|].
  intros address (entry & Hin & Haddr & Hexp).
  apply list_elem_of_lookup in Hin as [i Hi]. unfold manual. cbn [emailDatabase with_emailDatabase].
  destruct (decide (i = index)) as [->|Hne].
  - exists (with_messages count entry). split; [|auto].
    apply list_elem_of_lookup. exists index.
    rewrite list_lookup_alter_eq, Hi. reflexivity.
  - exists entry. split; [|auto].
    apply list_elem_of_lookup. exists i.
    rewrite list_lookup_alter_ne by auto. exact Hi.
Qed.

Lemma setMessageCount_deviceId (count : nat) (st : Dispenser) :
  deviceId (setMessageCount count st) = deviceId st.
Proof.
  unfold setMessageCount. destruct (findIndex _ _); [|reflexivity].
  rewrite saveToLocalStorage_deviceId. reflexivity.
Qed.

Lemma checkMail_store (silent : bool) (reply : Fetched (list Message)) (st st' : Dispenser) :
  checkMail silent reply st = Normal st' ->
  deviceId st' = deviceId st /\
  ((emailDatabase st' = emailDatabase st /\ localStorage st' = localStorage st) \/
   exists count,
     emailDatabase st' = emailDatabase (setMessageCount count st) /\
     localStorage st' = localStorage (setMessageCount count st)).
Proof.
  unfold checkMail. destruct (String.eqb (currentEmail st) "").
  { intros [= <-]. destruct silent; cbn; auto. }
  destruct reply as [|status| |messages];
    try solve [intros [= <-]; destruct silent; cbn; auto].
  cbn [await_json mbind Completion_bind try_catch]. intros [= <-].
  match goal with
  | |- context [foldl ?f ?s ?l] =>
      pose proof (notify_all_frame l s) as (Hdb & Hls & _);
      pose proof (notify_all_device l s) as Hdev
  end.
  rewrite Hdb, Hls, Hdev. cbn. split.
  - apply setMessageCount_deviceId.
  - right. exists (length messages). auto.
Qed.

End Persistence.

(** ** What the events do to the store *)

Section Events.

Lemma store_effect_saved (st0 st : Dispenser) :
  deviceId st = deviceId st0 -> localStorage st = localStorage st0 ->
  storageQuota st = storageQuota st0 -> console st = console st0 ->
  store_effect st0 (saveToLocalStorage st).
Proof.
  intros Hd Hl Hq Hc.
  assert (Hkey : storageKey st = storageKey st0) by (unfold storageKey; congruence).
  unfold store_effect.
  rewrite saveToLocalStorage_deviceId, saveToLocalStorage_storageQuota,
    saveToLocalStorage_emailDatabase.
  split; [exact Hd|]. split; [exact Hq|].
  destruct (saveToLocalStorage_cases st) as [[Hroom ->]|[Hroom ->]];
    cbv zeta in Hroom.
  - right. left. cbn. rewrite Hkey, Hl. split; [reflexivity|].
    apply save_errors_ext. exact Hc.
  - right. right. left. cbn [localStorage console_error with_console].
    split; [exact Hl|]. split; [rewrite <- Hkey, <- Hl, <- Hq; exact Hroom|].
    rewrite save_errors_console_error. cbn.
    rewrite (save_errors_ext st0 st Hc). lia.
Qed.

Lemma store_effect_same (st st' : Dispenser) :
  deviceId st' = deviceId st -> storageQuota st' = storageQuota st ->
  emailDatabase st' = emailDatabase st ->
  localStorage st' = localStorage st ->
  save_errors st' = save_errors st -> store_effect st st'.
Proof. intros. split; [|split]; auto. Qed.

(** The effect of an event is read off the final state's store fields. *)
Lemma store_effect_ext (st st1 st2 : Dispenser) :
  store_effect st st1 ->
  deviceId st2 = deviceId st1 -> storageQuota st2 = storageQuota st1 ->
  emailDatabase st2 = emailDatabase st1 -> localStorage st2 = localStorage st1 ->
  save_errors st2 = save_errors st1 ->
  store_effect st st2.
Proof.
  unfold store_effect. intros Heff -> -> -> -> ->. exact Heff.
Qed.

Lemma setMessageCount_effect (count : nat) (st : Dispenser) :
  store_effect st (setMessageCount count st).
Proof.
  unfold setMessageCount. destruct (findIndex _ _).
  - apply store_effect_saved; reflexivity.
  - apply store_effect_same; reflexivity.
Qed.

Lemma checkMail_effect (silent : bool) (reply : Fetched (list Message)) (st st' : Dispenser) :
  checkMail silent reply st = Normal st' -> store_effect st st'.
Proof.
  unfold checkMail. destruct (String.eqb (currentEmail st) "").
  { intros [= <-]. destruct silent; apply store_effect_same; reflexivity. }
  destruct reply as [|status| |messages];
    try solve [intros [= <-]; destruct silent; apply store_effect_same;
               try reflexivity;
               apply (save_errors_other "Error checking mail:" st); reflexivity].
  cbn [await_json mbind Completion_bind try_catch]. intros [= <-].
  match goal with
  | |- context [foldl ?f ?s ?l] =>
      pose proof (notify_all_frame l s) as (Hdb & Hls & _);
      pose proof (notify_all_device l s) as Hdev;
      pose proof (notify_all_host l s) as (Hq & Hc)
  end.
  eapply store_effect_ext; [apply (setMessageCount_effect (length messages) st)| | | | |].
  - rewrite Hdev. reflexivity.
  - rewrite Hq. reflexivity.
  - rewrite Hdb. reflexivity.
  - rewrite Hls. reflexivity.
  - apply save_errors_ext. rewrite Hc. reflexivity.
Qed.

Lemma checkExpirations_unchanged (now : Z) (st : Dispenser) :
  existsb (expired now) (emailDatabase st) = false ->
  checkExpirations now st = st.
Proof.
  intros Hnone. unfold checkExpirations. rewrite Hnone.
  rewrite filter_none_removed; [destruct st; reflexivity|].
  intros e He. destruct (expired now e) eqn:Hexp; [|reflexivity].
  assert (existsb (expired now) (emailDatabase st) = true)
    by (apply existsb_exists; exists e; auto).
  congruence.
Qed.

Lemma checkExpirations_effect (now : Z) (st : Dispenser) :
  store_effect st (checkExpirations now st).
Proof.
  destruct (existsb (expired now) (emailDatabase st)) eqn:Hchanged.
  - unfold checkExpirations. rewrite Hchanged.
    apply store_effect_saved; reflexivity.
  - rewrite (checkExpirations_unchanged now st Hchanged).
    apply store_effect_same; reflexivity.
Qed.

Lemma saveEmailWithExpiration_effect
    (hours : option Number) (now : Z) (st st' : Dispenser) :
  saveEmailWithExpiration hours now st = Normal st' -> store_effect st st'.
Proof.
  intros Hrun.
  apply saveEmailWithExpiration_state in Hrun as (entry & text & -> & _).
  eapply store_effect_ext;
    [apply (store_effect_saved st
              (with_emailDatabase (emailDatabase st ++ [entry]) st));
     reflexivity|..]; reflexivity.
Qed.

Lemma act_store_effect (a : Action) (st st' : Dispenser) :
  act a st = Normal st' -> store_effect st st'.
Proof.
  destruct a as [reply|option now|time unit now|reply|address reply|reply|now|index|confirmed];
    cbn [act].
  - unfold generateNewEmail.
    destruct reply as [|status| |[|[|first rest]]]; intros [= <-];
      apply store_effect_same; try reflexivity;
      apply (save_errors_other "Error generating email:" st); reflexivity.
  - destruct option as [| |hours]; cbn [handleExpirationOption].
    + intros [= <-]. apply store_effect_same; reflexivity.
    + apply saveEmailWithExpiration_effect.
    + apply saveEmailWithExpiration_effect.
  - unfold saveCustomExpiration. destruct (_ || _).
    + intros [= <-]. apply store_effect_same; reflexivity.
    + apply saveEmailWithExpiration_effect.
  - apply checkMail_effect.
  - unfold selectEmailFromHistory. intros Hrun. apply checkMail_effect in Hrun. exact Hrun.
  - unfold autoRefresh. destruct (String.eqb _ _).
    + intros [= <-]. apply store_effect_same; reflexivity.
    + apply checkMail_effect.
  - intros [= <-]. apply checkExpirations_effect.
  - intros [= <-]. unfold deleteEmailFromDB.
    eapply store_effect_ext;
      [apply (store_effect_saved st
                (with_emailDatabase (splice1 index (emailDatabase st)) st));
       reflexivity|..]; reflexivity.
  - intros [= <-]. destruct confirmed; cbn.
    + split; [reflexivity|]. split; [reflexivity|].
      right. right. right. split; [reflexivity|]. split; reflexivity.
    + apply store_effect_same; reflexivity.
Qed.

(** An event that logged no failed save keeps the record in step. *)
Lemma store_effect_restorable (st st' : Dispenser) :
  store_effect st st' -> save_errors st' = save_errors st ->
  restorable st -> restorable st'.
Proof.
  intros (Hd & Hq & [(Hdb & Hls & _)|[(Hls & _)|[(_ & _ & Herr)|(Hdb & Hls & _)]]])
    Hsame Hsync.
  - apply restorable_iff. apply restorable_iff in Hsync as [Hsync Hjson].
    rewrite (persisted_frame st st' Hd Hls), (foreign_record_frame st st' Hd Hls), Hdb.
    auto.
  - exact (restorable_written st st' Hd Hls).
  - lia.
  - apply restorable_iff. unfold persisted, foreign_record.
    assert (Hkey : storageKey st' = storageKey st) by (unfold storageKey; congruence).
    rewrite Hkey, Hls, lookup_delete_eq, Hdb. split; [reflexivity|].
    intros (v & [=]).
Qed.

Lemma store_effect_outside (st st' : Dispenser) :
  store_effect st st' -> same_outside_record st st'.
Proof.
  intros (Hd & _ & [(_ & Hls & _)|[(Hls & _)|[(Hls & _)|(_ & Hls & _)]]]);
    split; try exact Hd; intros key Hkey; rewrite Hls.
  - reflexivity.
  - apply lookup_insert_ne. auto.
  - reflexivity.
  - apply lookup_delete_ne. auto.
Qed.

Lemma store_effect_save_errors (st st' : Dispenser) :
  store_effect st st' ->
  (save_errors st <= save_errors st')%nat /\
  ((forall items, storageQuota st items = true) ->
   save_errors st' = save_errors st).
Proof.
  intros (_ & _ & [(_ & _ & ->)|[(_ & ->)|[(_ & Hfull & ->)|(_ & _ & ->)]]]);
    split; try lia; try reflexivity.
  intros Hroom. rewrite Hroom in Hfull. discriminate.
Qed.

Lemma handles_save_errors (st st' : Dispenser) :
  rtc handles st st' -> (save_errors st <= save_errors st')%nat.
Proof.
  intros Hsteps. induction Hsteps as [st|st st1 st2 [a Hact] _ IH]; [lia|].
  pose proof (proj1 (store_effect_save_errors st st1 (act_store_effect a st st1 Hact))).
  lia.
Qed.

Lemma loadFromLocalStorage_result (st : Dispenser) :
  ~ foreign_record st ->
  exists st',
    loadFromLocalStorage st = Normal (Restored_entries st') /\
    emailDatabase st' = persisted st /\
    localStorage st' = localStorage st /\
    deviceId st' = deviceId st /\
    storageQuota st' = storageQuota st /\
    save_errors st' = save_errors st.
Proof.
  unfold loadFromLocalStorage, persisted, foreign_record.
  destruct (localStorage st !! storageKey st) as [[db|text|value]|]; cbn; intros Hjson.
  - eexists. split; [reflexivity|]. cbn. auto 10.
  - destruct text; cbn; eexists; (split; [reflexivity|]); cbn;
      repeat (split; [reflexivity|]);
      try reflexivity;
      apply (save_errors_other "Error loading from localStorage:" st); reflexivity.
  - exfalso. apply Hjson. eauto.
  - eexists. split; [reflexivity|]. cbn. auto 10.
Qed.

Lemma loadFromLocalStorage_restorable (st st' : Dispenser) :
  loadFromLocalStorage st = Normal (Restored_entries st') -> restorable st'.
Proof.
  intros Hload.
  assert (Hjson : ~ foreign_record st).
  { intros (value & Hrec). unfold loadFromLocalStorage in Hload.
    rewrite Hrec in Hload. discriminate. }
  destruct (loadFromLocalStorage_result st Hjson)
    as (st1 & Hrun & Hdb & Hls & Hd & _).
  rewrite Hrun in Hload. injection Hload as <-.
  apply restorable_iff.
  rewrite (persisted_frame st st1 Hd Hls), (foreign_record_frame st st1 Hd Hls).
  auto.
Qed.

(** X1: as long as no save has failed, the persisted record restores to the
    in-memory collection.  This holds for a fresh dispenser and right after
    a restore that yields entries, and it is kept along every sequence of
    events of the page (generate, choose an option, confirm a custom time,
    poll, select, auto-refresh, expiration tick, delete, clear) during which
    the console got no new line of a failed save; in particular along every
    sequence of events on a storage that has room for every write.  The
    failed saves on the console never get fewer. *)
Theorem restorable_invariant :
  (forall device, restorable (fresh device)) /\
  (forall st st',
     loadFromLocalStorage st = Normal (Restored_entries st') -> restorable st') /\
  (forall st st',
     restorable st -> rtc handles st st' ->
     save_errors st' = save_errors st -> restorable st') /\
  (forall st st',
     (forall items, storageQuota st items = true) ->
     restorable st -> rtc handles st st' -> restorable st') /\
  (forall st st', rtc handles st st' -> (save_errors st <= save_errors st')%nat).
Proof.
  split; [|split; [|split; [|split]]].
  - intros device. apply restorable_iff. split; [reflexivity|].
    intros (v & Hv). discriminate.
  - apply loadFromLocalStorage_restorable.
  - intros st st' Hsync Hsteps.
    induction Hsteps as [st|st st1 st2 [a Hact] Hrest IH]; intros Hsame.
    + exact Hsync.
    + pose proof (act_store_effect a st st1 Hact) as Heff.
      pose proof (proj1 (store_effect_save_errors st st1 Heff)) as Hle.
      pose proof (handles_save_errors st1 st2 Hrest) as Hle'.
      apply IH; [|lia].
      apply (store_effect_restorable st st1 Heff); [lia|exact Hsync].
  - intros st st' Hroom Hsync Hsteps.
    induction Hsteps as [st|st st1 st2 [a Hact] _ IH].
    + exact Hsync.
    + pose proof (act_store_effect a st st1 Hact) as Heff.
      pose proof (proj2 (store_effect_save_errors st st1 Heff) Hroom) as Hsame.
      apply IH.
      * destruct Heff as (_ & -> & _). exact Hroom.
      * apply (store_effect_restorable st st1 Heff Hsame Hsync).
  - apply handles_save_errors.
Qed.

Lemma restorable_invariant_witness :
  exists st1 st',
    act (Generate (Body (Array ["a@x.com"%string]))) (fresh "device") = Normal st1 /\
    act (ChooseOption ManualOption 10) st1 = Normal st' /\
    emailDatabase st' =
      [{| email := "a@x.com"; date := 10; expiration := None; messages := O |}] /\
    restorable st'.
Proof.
  eexists _, _. split; [reflexivity|]. split; [reflexivity|]. split; [reflexivity|].
  eapply (proj1 (proj2 (proj2 restorable_invariant))).
  - apply (proj1 restorable_invariant "device").
  - eapply rtc_l.
    + exists (Generate (Body (Array ["a@x.com"%string]))). reflexivity.
    + apply rtc_once. exists (ChooseOption ManualOption 10). reflexivity.
  - reflexivity.
Defined.

(** A save that fails leaves the record behind the collection: after a
    commit on a storage without room a restore would load nothing. *)
Example commit_without_room_is_stale :
  exists st',
    act (ChooseOption ManualOption 10)
        (without_room (with_currentEmail "a@x.com" (fresh "device"))) = Normal st' /\
    length (emailDatabase st') = 1%nat /\
    persisted st' = [] /\
    save_errors st' = 1%nat /\
    ~ restorable st'.
Proof.
  eexists. split; [reflexivity|]. split; [reflexivity|].
  split; [reflexivity|]. split; [reflexivity|].
  intros Hsync. apply restorable_iff in Hsync as [Hsync _]. discriminate.
Qed.

(** X2: no event of the page writes any [localStorage] key other than the
    device's own record [emailDatabase_<deviceId>]; in particular the
    [deviceId] record and the device identifier survive every sequence of
    events, clearing the history included. *)
Theorem events_write_only_own_record (st st' : Dispenser) :
  rtc handles st st' ->
  same_outside_record st st' /\
  storageKey st <> "deviceId" /\
  localStorage st' !! "deviceId" = localStorage st !! "deviceId".
Proof.
  intros Hsteps.
  assert (Hkey : forall s, storageKey s <> "deviceId") by (intros s; discriminate).
  assert (Hout : same_outside_record st st').
  { induction Hsteps as [st|st st1 st2 [a Hact] _ IH].
    - apply same_outside_record_refl.
    - eapply same_outside_record_trans; [|exact IH].
      apply store_effect_outside, (act_store_effect a), Hact. }
  split; [exact Hout|]. split; [apply Hkey|].
  destruct Hout as [_ Hout]. apply Hout. intros Heq. apply (Hkey st). auto.
Qed.

Lemma events_write_only_own_record_witness :
  let st := with_localStorage {[ "deviceId" := Unparseable "6f1c-uuid" ]} (fresh "6f1c-uuid") in
  exists st',
    act (ClearAll true) st = Normal st' /\
    localStorage st' !! "deviceId" = Some (Unparseable "6f1c-uuid").
Proof.
  cbv zeta. eexists. split; [reflexivity|].
  match goal with
  | |- localStorage ?s' !! _ = _ =>
      destruct (events_write_only_own_record
                  (with_localStorage {[ "deviceId" := Unparseable "6f1c-uuid" ]}
                     (fresh "6f1c-uuid")) s') as (_ & _ & ->)
  end.
  - apply rtc_once. exists (ClearAll true). reflexivity.
  - apply lookup_singleton_eq.
Defined.

(** X3: on a record that is absent, empty, rejected by [JSON.parse] or the
    serialization of an array of entries, [init] returns normally and leaves
    exactly the persisted entries that are not expired at start-up, so no
    entry shown after start-up is expired; the record is in step with the
    collection unless the save of the sweep failed.  On a record of valid
    JSON that is not an array, or is an array with a [null] element, [init]
    throws a [TypeError]: the restore takes the value as it is and the
    initial expiration check calls [filter] on it. *)
Theorem init_drops_expired (now : Z) (st : Dispenser) :
  (~ foreign_record st ->
   exists st',
     init now st = Normal st' /\
     emailDatabase st' =
       List.filter (fun entry => negb (expired now entry)) (persisted st) /\
     (forall entry, entry ∈ emailDatabase st' -> expired now entry = false) /\
     (save_errors st' = save_errors st -> restorable st')) /\
  (foreign_record st -> init now st = Throw TypeError).
Proof.
  split.
  - intros Hjson.
    destruct (loadFromLocalStorage_result st Hjson)
      as (st1 & Hrun & Hdb & Hls & Hd & Hq & Herr).
    exists (checkExpirations now st1). unfold init. rewrite Hrun. cbn.
    split; [reflexivity|].
    assert (Hentries : emailDatabase (checkExpirations now st1) =
                       List.filter (fun entry => negb (expired now entry)) (persisted st))
      by (rewrite checkExpirations_entries, Hdb; reflexivity).
    split; [exact Hentries|]. split.
    + intros entry Hin. rewrite Hentries in Hin.
      apply list_elem_of_In, filter_In in Hin as [_ Hin].
      apply negb_true_iff, Hin.
    + intros Hsame.
      apply (store_effect_restorable st1); [apply checkExpirations_effect|lia|].
      apply loadFromLocalStorage_restorable with (st := st). exact Hrun.
  - intros (value & Hrec). unfold init, loadFromLocalStorage. rewrite Hrec.
    destruct value; reflexivity.
Qed.

Lemma init_drops_expired_witness :
  (exists st',
     init 7 (with_localStorage
               {[ "emailDatabase_device" :=
                    Serialized [sample_entry "a@x.com" (Some 5);
                                sample_entry "b@x.com" None] ]}
               (fresh "device")) = Normal st' /\
     emailDatabase st' = [sample_entry "b@x.com" None]) /\
  init 7 (with_localStorage
            {[ "emailDatabase_device" := OtherJson (NonArray "null") ]}
            (fresh "device")) = Throw TypeError /\
  init 7 (with_localStorage
            {[ "emailDatabase_device" := OtherJson (ArrayWithNull "[null]") ]}
            (fresh "device")) = Throw TypeError.
Proof.
  split; [|split].
  - destruct (proj1 (init_drops_expired 7
                       (with_localStorage
                          {[ "emailDatabase_device" :=
                               Serialized [sample_entry "a@x.com" (Some 5);
                                           sample_entry "b@x.com" None] ]}
                          (fresh "device"))))
      as (st' & Hrun & Hdb & _).
    + intros (value & Hrec). vm_compute in Hrec. discriminate.
    + exists st'. split; [exact Hrun|]. rewrite Hdb. vm_compute. reflexivity.
  - apply (proj2 (init_drops_expired 7 _)).
    exists (NonArray "null"). apply lookup_singleton_eq.
  - apply (proj2 (init_drops_expired 7 _)).
    exists (ArrayWithNull "[null]"). apply lookup_singleton_eq.
Defined.

(** X4: the expiration sweep is silent and saves only a change: when no
    entry is expired the whole state is left as it is (nothing is written);
    otherwise the collection is saved: the record is rewritten from the
    entries kept, or the exception of [setItem] is logged and the record
    stays as it was.  No toast is shown either way. *)
Theorem checkExpirations_persists_on_change (now : Z) (st : Dispenser) :
  let st' := checkExpirations now st in
  ((forall entry, entry ∈ emailDatabase st -> expired now entry = false) ->
   st' = st) /\
  ((exists entry, entry ∈ emailDatabase st /\ expired now entry = true) ->
   saved_or_logged st st') /\
  toasts st' = toasts st.
Proof.
  cbv zeta. split; [|split].
  - intros Hnone. apply checkExpirations_unchanged.
    apply existsb_false. intros e He. apply Hnone, list_elem_of_In, He.
  - intros (entry & Hin & Hexp). unfold checkExpirations.
    assert (existsb (expired now) (emailDatabase st) = true) as ->.
    { apply existsb_exists. exists entry. split; [apply list_elem_of_In, Hin|exact Hexp]. }
    apply saveToLocalStorage_saved_or_logged; reflexivity.
  - unfold checkExpirations. destruct (existsb _ _); [|reflexivity].
    match goal with
    | |- context [saveToLocalStorage ?s] =>
        destruct (saveToLocalStorage_page s) as (_ & _ & -> & _)
    end.
    reflexivity.
Qed.

Lemma checkExpirations_persists_on_change_witness :
  let st := with_emailDatabase
              [sample_entry "a@x.com" (Some 5); sample_entry "b@x.com" None]
              (fresh "device") in
  checkExpirations 3 st = st /\
  localStorage (checkExpirations 7 st) =
    {[ "emailDatabase_device" := Serialized [sample_entry "b@x.com" None] ]} /\
  localStorage (checkExpirations 7 (without_room st)) = ∅ /\
  console (checkExpirations 7 (without_room st)) = ["Error saving to localStorage:"].
Proof.
  cbv zeta.
  set (st := with_emailDatabase
               [sample_entry "a@x.com" (Some 5); sample_entry "b@x.com" None]
               (fresh "device")).
  assert (Hexpired : forall s, emailDatabase s = emailDatabase st ->
            exists entry, entry ∈ emailDatabase s /\ expired 7 entry = true).
  { intros s ->. exists (sample_entry "a@x.com" (Some 5)). split; [left|reflexivity]. }
  pose proof (proj1 (proj2 (checkExpirations_persists_on_change 7 st))
                (Hexpired st eq_refl)) as Hsaved.
  pose proof (proj1 (proj2 (checkExpirations_persists_on_change 7 (without_room st)))
                (Hexpired (without_room st) eq_refl)) as Hlogged.
  split; [|split; [|split]].
  - apply (proj1 (checkExpirations_persists_on_change 3 _)).
    intros entry Hin. cbn in Hin.
    apply elem_of_cons in Hin as [->|Hin]; [reflexivity|].
    apply elem_of_cons in Hin as [->|Hin]; [reflexivity|].
    apply elem_of_nil in Hin. contradiction.
  - exact (proj1 Hsaved).
  - exact (proj1 Hlogged).
  - exact (proj2 Hlogged).
Defined.

End Events.

(** ** Deleting a row, generating, committing *)

Section Rows.

(** X5: [deleteEmailFromDB(index)] follows [splice]: an index inside the
    collection removes exactly that entry; an index at or past the end
    removes nothing; a negative index counts from the end (and one below
    [-length] removes the first entry).  In every case the collection is
    saved (the record is rewritten from it, or the exception of [setItem]
    is logged and the record stays as it was) and the toast "Email deleted
    from history" is shown, also when nothing was removed. *)
Theorem deleteEmailFromDB_spec (index : Z) (st : Dispenser) :
  let db := emailDatabase st in
  let len := Z.of_nat (length db) in
  let st' := deleteEmailFromDB index st in
  (0 <= index < len ->
   emailDatabase st' = take (Z.to_nat index) db ++ drop (S (Z.to_nat index)) db /\
   S (length (emailDatabase st')) = length db) /\
  (len <= index -> emailDatabase st' = db) /\
  (- len <= index < 0 -> emailDatabase st' = delete (Z.to_nat (len + index)) db) /\
  (index < - len -> emailDatabase st' = drop 1 db) /\
  saved_or_logged st st' /\
  toasts st' =
    toasts st ++ [{| toast_message := "Email deleted from history";
                     toast_type := success |}].
Proof.
  cbv zeta.
  assert (Hdb : emailDatabase (deleteEmailFromDB index st) =
                splice1 index (emailDatabase st)).
  { unfold deleteEmailFromDB. cbn [emailDatabase showToast with_toasts].
    rewrite saveToLocalStorage_emailDatabase. reflexivity. }
  rewrite Hdb. unfold splice1.
  split; [|split; [|split; [|split; [|split]]]].
  - intros Hin. destruct (Z.ltb_spec index 0); [lia|].
    rewrite Z.min_l by lia. rewrite delete_take_drop. split; [reflexivity|].
    rewrite <- delete_take_drop, length_delete.
    + assert (0 < length (emailDatabase st))%nat by lia. lia.
    + apply lookup_lt_is_Some. lia.
  - intros Hout. destruct (Z.ltb_spec index 0); [lia|].
    rewrite Z.min_r by lia. rewrite Nat2Z.id.
    rewrite delete_take_drop, firstn_all, drop_ge by lia. apply app_nil_r.
  - intros Hneg. destruct (Z.ltb_spec index 0); [|lia].
    rewrite Z.max_l by lia. reflexivity.
  - intros Hlow. destruct (Z.ltb_spec index 0); [|lia].
    rewrite Z.max_r by lia. destruct (emailDatabase st); reflexivity.
  - exact (saveToLocalStorage_saved_or_logged st
             (with_emailDatabase (splice1 index (emailDatabase st)) st)
             eq_refl eq_refl eq_refl eq_refl).
  - unfold deleteEmailFromDB. cbn [toasts showToast with_toasts].
    match goal with
    | |- context [saveToLocalStorage ?s] =>
        destruct (saveToLocalStorage_page s) as (_ & _ & -> & _)
    end.
    reflexivity.
Qed.

Lemma deleteEmailFromDB_spec_witness :
  let st := with_emailDatabase
              [sample_entry "a@x.com" None; sample_entry "b@x.com" None;
               sample_entry "c@x.com" None] (fresh "device") in
  emailDatabase (deleteEmailFromDB 1 st) =
    [sample_entry "a@x.com" None; sample_entry "c@x.com" None] /\
  emailDatabase (deleteEmailFromDB 3 st) = emailDatabase st /\
  emailDatabase (deleteEmailFromDB (-1) st) =
    [sample_entry "a@x.com" None; sample_entry "b@x.com" None] /\
  emailDatabase (deleteEmailFromDB (-7) st) =
    [sample_entry "b@x.com" None; sample_entry "c@x.com" None] /\
  localStorage (deleteEmailFromDB 1 st) =
    {[ "emailDatabase_device" :=
         Serialized [sample_entry "a@x.com" None; sample_entry "c@x.com" None] ]} /\
  localStorage (deleteEmailFromDB 1 (without_room st)) = ∅ /\
  console (deleteEmailFromDB 1 (without_room st)) = ["Error saving to localStorage:"].
Proof.
  cbv zeta.
  set (st := with_emailDatabase
               [sample_entry "a@x.com" None; sample_entry "b@x.com" None;
                sample_entry "c@x.com" None] (fresh "device")).
  pose proof (deleteEmailFromDB_spec 1 st) as (Hin & _ & _ & _ & Hsaved & _).
  pose proof (deleteEmailFromDB_spec 3 st) as (_ & Hout & _).
  pose proof (deleteEmailFromDB_spec (-1) st) as (_ & _ & Hneg & _).
  pose proof (deleteEmailFromDB_spec (-7) st) as (_ & _ & _ & Hlow & _).
  pose proof (deleteEmailFromDB_spec 1 (without_room st))
    as (_ & _ & _ & _ & Hlogged & _).
  cbv zeta in *.
  destruct Hin as [Hin _]; [cbn; lia|].
  specialize (Hout ltac:(cbn; lia)).
  specialize (Hneg ltac:(cbn; lia)).
  specialize (Hlow ltac:(cbn; lia)).
  rewrite Hin, Hout, Hneg, Hlow.
  do 4 (split; [reflexivity|]).
  split; [exact (proj1 Hsaved)|]. split; [exact (proj1 Hlogged)|exact (proj2 Hlogged)].
Defined.

(** X6: [generateNewEmail] returns normally on every reply and never
    changes the entries, the storage or the seen sets: no entry exists
    until an expiration is chosen.  When the reply is a non-empty array its
    first item becomes the selection and the expiration dialog opens,
    without a toast; further items are ignored. *)
Theorem generateNewEmail_frame (reply : Fetched MailboxData) (st : Dispenser) :
  exists st',
    generateNewEmail reply st = Normal st' /\
    emailDatabase st' = emailDatabase st /\
    localStorage st' = localStorage st /\
    lastCheckedMessages st' = lastCheckedMessages st /\
    (forall first rest,
       reply = Body (Array (first :: rest)) ->
       currentEmail st' = first /\ expirationDialog st' = true /\
       toasts st' = toasts st).
Proof.
  unfold generateNewEmail.
  destruct reply as [|status| |[|[|first rest]]]; cbn;
    (eexists; split; [reflexivity|]); cbn;
    repeat (split; [reflexivity|]); intros first' rest' [=]; subst; auto.
Qed.

Lemma generateNewEmail_frame_witness :
  exists st',
    generateNewEmail (Body (Array ["n1@x.com"; "n2@x.com"]%string)) (fresh "device")
      = Normal st' /\
    currentEmail st' = "n1@x.com" /\ expirationDialog st' = true /\
    emailDatabase st' = [].
Proof.
  destruct (generateNewEmail_frame
              (Body (Array ["n1@x.com"; "n2@x.com"]%string)) (fresh "device"))
    as (st' & Hrun & Hdb & _ & _ & Hsel).
  exists st'. destruct (Hsel _ _ eq_refl) as (Hcur & Hdlg & _). auto.
Defined.

(** X7: a custom time of [Infinity] passes the validity check of
    [saveCustomExpiration] (it is truthy and positive), but with any
    positive unit the expiration Date is invalid and [toISOString] throws a
    [RangeError] out of the handler: no entry is added, nothing is stored,
    no toast is shown and the dialog stays as it is. *)
Theorem saveCustomExpiration_infinite_time (unit : Number) (now : Z) (st : Dispenser) :
  lt (of_Z 0) unit = true ->
  saveCustomExpiration (S754_infinity false) unit now st = Throw RangeError.
Proof.
  intros Hpos. unfold saveCustomExpiration.
  change (negb (truthy (S754_infinity false)) || le (S754_infinity false) (of_Z 0))
    with false. cbv iota zeta.
  assert (Hmul : mul (S754_infinity false) unit = S754_infinity false).
  { destruct unit as [s|s| |s m e]; try discriminate; destruct s; try discriminate;
      reflexivity. }
  rewrite Hmul. unfold saveEmailWithExpiration.
  change (truthy (S754_infinity false)) with true. cbv iota.
  change (mul (S754_infinity false) (of_Z 3600000)) with (S754_infinity false).
  assert (Hdate : Date_new (add (of_Z now) (S754_infinity false)) = None).
  { unfold add. destruct (of_Z now) as [s|s| |s m e]; try destruct s; reflexivity. }
  rewrite Hdate. reflexivity.
Qed.

Lemma saveCustomExpiration_infinite_time_witness :
  saveCustomExpiration (S754_infinity false) (of_Z 24) 1700000000000 (fresh "device")
    = Throw RangeError.
Proof.
  apply saveCustomExpiration_infinite_time. vm_compute. reflexivity.
Defined.

(** X8: choosing the manual option, or a preset whose hours are falsy ([0],
    [-0] or [NaN], as [parseInt] gives for a missing attribute), always
    succeeds and appends an entry without expiration for the selected
    address, with no messages, saves the collection (the record is
    rewritten from it, or the exception of [setItem] is logged and the
    record stays as it was) and closes the dialog. *)
Theorem handleExpirationOption_without_expiration
    (option : ExpirationOption) (now : Z) (st : Dispenser) :
  option = ManualOption \/
  (exists hours, option = HoursOption hours /\ truthy hours = false) ->
  exists st',
    handleExpirationOption option now st = Normal st' /\
    emailDatabase st' =
      emailDatabase st ++
      [{| email := currentEmail st; date := now; expiration := None;
          messages := O |}] /\
    manual (currentEmail st) st' /\
    saved_or_logged st st' /\
    expirationDialog st' = false.
Proof.
  intros Hfalsy.
  assert (Hcall : exists hours,
             (hours = None \/ (exists h, hours = Some h /\ truthy h = false)) /\
             handleExpirationOption option now st =
             saveEmailWithExpiration hours now st).
  { destruct Hfalsy as [->|(hours & -> & Hf)];
      [exists None|exists (Some hours)]; split; try reflexivity; eauto. }
  destruct Hcall as (hours & Hnone & ->).
  assert (Hok : exists st', saveEmailWithExpiration hours now st = Normal st').
  { unfold saveEmailWithExpiration.
    destruct Hnone as [->|(h & -> & ->)]; eexists; reflexivity. }
  destruct Hok as (st' & Hrun). exists st'. split; [exact Hrun|].
  destruct (saveEmailWithExpiration_result _ _ _ _ Hrun)
    as (entry & Hdb & Haddr & Hdate & Hcount & Hexp & Hsaved & _ & _ & _ & Hdlg).
  specialize (Hexp Hnone).
  assert (Hentry : entry = {| email := currentEmail st; date := now;
                              expiration := None; messages := O |})
    by (destruct entry; cbn in *; congruence).
  subst entry. split; [exact Hdb|]. split; [|split; [exact Hsaved|exact Hdlg]].
  exists {| email := currentEmail st; date := now; expiration := None;
            messages := O |}.
  rewrite Hdb. split; [|split; reflexivity]. apply elem_of_app. right. left.
Qed.

Lemma handleExpirationOption_without_expiration_witness :
  let st := with_currentEmail "a@x.com" (fresh "device") in
  (exists st',
     handleExpirationOption (HoursOption NaN) 1000 st = Normal st' /\
     emailDatabase st' =
       [{| email := "a@x.com"; date := 1000; expiration := None; messages := O |}] /\
     localStorage st' =
       {[ "emailDatabase_device" :=
            Serialized [{| email := "a@x.com"; date := 1000; expiration := None;
                           messages := O |}] ]}) /\
  (exists st',
     handleExpirationOption ManualOption 1000 (without_room st) = Normal st' /\
     length (emailDatabase st') = 1%nat /\
     localStorage st' = ∅ /\
     console st' = ["Error saving to localStorage:"]).
Proof.
  cbv zeta. split.
  - destruct (handleExpirationOption_without_expiration (HoursOption NaN) 1000
                (with_currentEmail "a@x.com" (fresh "device")))
      as (st' & Hrun & Hdb & _ & Hsaved & _).
    + right. exists NaN. split; reflexivity.
    + exists st'. split; [exact Hrun|]. split; [exact Hdb|].
      unfold saved_or_logged in Hsaved. cbv zeta in Hsaved. rewrite Hdb in Hsaved.
      exact (proj1 Hsaved).
  - destruct (handleExpirationOption_without_expiration ManualOption 1000
                (without_room (with_currentEmail "a@x.com" (fresh "device"))))
      as (st' & Hrun & Hdb & _ & Hlogged & _).
    + left. reflexivity.
    + exists st'. split; [exact Hrun|]. split; [rewrite Hdb; reflexivity|].
      exact Hlogged.
Defined.

End Rows.

(** ** Polls in sequence *)

Section Polls.

Lemma filter_all_false {A : Type} (p : A -> bool) (l : list A) :
  (forall x, In x l -> p x = false) -> List.filter p l = [].
Proof.
  induction l as [|x l IH]; cbn; intros Hall; [reflexivity|].
  rewrite (Hall x) by (left; reflexivity). apply IH.
  intros y Hy. apply Hall. right. exact Hy.
Qed.

Lemma raised_nothing (st st' : Dispenser) :
  raised st [] st' -> toasts st' = toasts st /\ notifications st' = notifications st.
Proof.
  unfold raised. destruct (_ || _); cbn; rewrite app_nil_r; tauto.
Qed.

Lemma checkMail_success (silent : bool) (messages : list Message) (st : Dispenser) :
  currentEmail st <> "" ->
  exists st',
    checkMail silent (Body messages) st = Normal st' /\
    raised st (filterNewMessages messages st) st' /\
    lastCheckedMessages st' =
      <[currentEmail st := list_to_set (id <$> messages)]> (lastCheckedMessages st) /\
    lastChecked st' = list_to_set (id <$> messages) /\
    currentEmail st' = currentEmail st.
Proof.
  intros Hsel. unfold checkMail. apply String.eqb_neq in Hsel. rewrite Hsel.
  cbn [await_json mbind Completion_bind try_catch].
  eexists. split; [reflexivity|].
  pose proof (setMessageCount_currentEmail (length messages) st) as Hcur.
  pose proof (setMessageCount_lastChecked (length messages) st) as Hseen.
  pose proof (setMessageCount_page (length messages) st) as (Hapi & Hperm & Htoasts & Hnotes).
  generalize dependent (setMessageCount (length messages) st). intros st1 **.
  assert (Hnew : filterNewMessages messages st1 = filterNewMessages messages st).
  { unfold filterNewMessages, lastChecked. rewrite Hcur, Hseen. reflexivity. }
  rewrite Hnew, Hcur, Hseen.
  match goal with
  | |- context [foldl ?f ?s ?l] =>
      pose proof (notify_all_raised l s) as Hraised;
      pose proof (notify_all_frame l s) as (_ & _ & Hseen' & Hcur')
  end.
  split; [|split; [|split]].
  - unfold raised in *. cbn in Hraised.
    rewrite Hapi, Hperm, Htoasts, Hnotes, Hcur in Hraised. exact Hraised.
  - rewrite Hseen'. reflexivity.
  - unfold lastChecked. rewrite Hseen', Hcur'. cbn.
    rewrite Hcur, lookup_insert_eq. reflexivity.
  - rewrite Hcur'. cbn. exact Hcur.
Qed.

(** X9: polling the same inbox twice notifies once: after a poll that
    fetched [messages], none of them is new any more, and a second poll
    fetching the same [messages] raises no toast and no notification and
    leaves the seen sets as they are. *)
Theorem checkMail_same_inbox_twice
    (silent silent' : bool) (messages : list Message) (st st1 : Dispenser) :
  currentEmail st <> "" ->
  checkMail silent (Body messages) st = Normal st1 ->
  filterNewMessages messages st1 = [] /\
  exists st2,
    checkMail silent' (Body messages) st1 = Normal st2 /\
    toasts st2 = toasts st1 /\
    notifications st2 = notifications st1 /\
    lastCheckedMessages st2 = lastCheckedMessages st1.
Proof.
  intros Hsel Hrun.
  destruct (checkMail_success silent messages st Hsel)
    as (st1' & Hrun' & _ & Hmap & Hseen & Hcur).
  rewrite Hrun in Hrun'. injection Hrun' as <-.
  assert (Hnone : filterNewMessages messages st1 = []).
  { unfold filterNewMessages. apply filter_all_false. intros msg Hin.
    apply negb_false_iff. apply bool_decide_eq_true. rewrite Hseen.
    apply elem_of_list_to_set, list_elem_of_fmap. exists msg.
    split; [reflexivity|apply list_elem_of_In, Hin]. }
  split; [exact Hnone|].
  assert (Hsel1 : currentEmail st1 <> "") by (rewrite Hcur; exact Hsel).
  destruct (checkMail_success silent' messages st1 Hsel1)
    as (st2 & Hrun2 & Hraised & Hmap2 & _).
  exists st2. split; [exact Hrun2|].
  rewrite Hnone in Hraised. apply raised_nothing in Hraised as [Ht Hn].
  split; [exact Ht|]. split; [exact Hn|].
  rewrite Hmap2, Hmap, Hcur. apply insert_insert_eq.
Qed.

Lemma checkMail_same_inbox_twice_witness :
  exists st1,
    checkMail true (Body [sample_message 2; sample_message 3])
      (sample_poll (fresh "device")) = Normal st1 /\
    filterNewMessages [sample_message 2; sample_message 3] st1 = [].
Proof.
  eexists. split; [reflexivity|].
  apply (checkMail_same_inbox_twice true true [sample_message 2; sample_message 3]
           (sample_poll (fresh "device")));
    [discriminate|reflexivity].
Defined.

(** X10: the seen set holds the last poll only.  After a poll that fetched
    [previous], the next poll counts as new exactly the messages whose id
    was not in [previous], whatever had been seen before: a message that
    was seen, then missing from one poll, is notified again when it comes
    back. *)
Theorem checkMail_remembers_last_poll_only
    (silent : bool) (previous fetched : list Message) (st st1 : Dispenser)
    (msg : Message) :
  currentEmail st <> "" ->
  checkMail silent (Body previous) st = Normal st1 ->
  (msg ∈ filterNewMessages fetched st1 <->
   msg ∈ fetched /\ id msg ∉ id <$> previous).
Proof.
  intros Hsel Hrun.
  destruct (checkMail_success silent previous st Hsel)
    as (st1' & Hrun' & _ & _ & Hseen & _).
  rewrite Hrun in Hrun'. injection Hrun' as <-.
  unfold filterNewMessages. rewrite list_elem_of_In, filter_In, <- list_elem_of_In.
  rewrite negb_true_iff, bool_decide_eq_false, Hseen, elem_of_list_to_set.
  reflexivity.
Qed.

Lemma checkMail_remembers_last_poll_only_witness :
  exists st1,
    checkMail true (Body []) (sample_poll (fresh "device")) = Normal st1 /\
    1 ∈ lastChecked (sample_poll (fresh "device")) /\
    sample_message 1 ∈ filterNewMessages [sample_message 1] st1.
Proof.
  eexists. split; [reflexivity|]. split.
  - unfold lastChecked, sample_poll. cbn. rewrite lookup_singleton_eq. cbn. set_solver.
  - apply (checkMail_remembers_last_poll_only true [] [sample_message 1]
             (sample_poll (fresh "device")) _ (sample_message 1));
      [discriminate|reflexivity|].
    split; [left|]. cbn. apply not_elem_of_nil.
Defined.

(** X11: a poll that cannot fetch (rejected [fetch], non-OK status,
    unparseable body) or that has no selected address returns normally and
    leaves the entries, the storage, the seen sets and the notifications
    untouched; it shows exactly one error toast unless it is silent, in
    which case it shows none. *)
Theorem checkMail_failure_frame
    (silent : bool) (reply : Fetched (list Message)) (st : Dispenser) :
  currentEmail st = "" \/ (exists err, await_json reply = Throw err) ->
  exists st',
    checkMail silent reply st = Normal st' /\
    emailDatabase st' = emailDatabase st /\
    localStorage st' = localStorage st /\
    lastCheckedMessages st' = lastCheckedMessages st /\
    notifications st' = notifications st /\
    (silent = true -> toasts st' = toasts st) /\
    (silent = false -> exists text,
        toasts st' = toasts st ++ [{| toast_message := text; toast_type := error |}]).
Proof.
  intros Hfail. unfold checkMail.
  destruct (String.eqb_spec (currentEmail st) "") as [Hcur|Hcur].
  - destruct silent; (eexists; split; [reflexivity|]); cbn;
      do 4 (split; [reflexivity|]); (split; [intros ?|intros ?]);
      try discriminate; eauto.
  - destruct Hfail as [Hcur'|(err & Herr)]; [contradiction|].
    rewrite Herr. cbn [mbind Completion_bind try_catch].
    destruct silent; (eexists; split; [reflexivity|]); cbn;
      do 4 (split; [reflexivity|]); (split; [intros ?|intros ?]);
      try discriminate; eauto.
Qed.

Lemma checkMail_failure_frame_witness :
  exists st',
    checkMail true (HttpFailure 500) (sample_poll (fresh "device")) = Normal st' /\
    toasts st' = [] /\
    lastCheckedMessages st' = lastCheckedMessages (sample_poll (fresh "device")).
Proof.
  destruct (checkMail_failure_frame true (HttpFailure 500) (sample_poll (fresh "device")))
    as (st' & Hrun & _ & _ & Hseen & _ & Hsilent & _).
  - right. exists (HttpError 500). reflexivity.
  - exists st'. split; [exact Hrun|]. split; [apply Hsilent; reflexivity|exact Hseen].
Defined.

(** X12: on the store a successful poll is [updateMessageCount] with the
    number of fetched messages: the entries and the storage after the poll
    are those after that update, no entry is added or removed and no address
    changes; the selection stays. *)
Theorem checkMail_records_count
    (silent : bool) (messages : list Message) (st : Dispenser) :
  currentEmail st <> "" ->
  exists st',
    checkMail silent (Body messages) st = Normal st' /\
    emailDatabase st' = emailDatabase (updateMessageCount (length messages) st) /\
    localStorage st' = localStorage (updateMessageCount (length messages) st) /\
    addresses st' = addresses st /\
    currentEmail st' = currentEmail st.
Proof.
  intros Hsel. unfold checkMail. apply String.eqb_neq in Hsel. rewrite Hsel.
  cbn [await_json mbind Completion_bind try_catch].
  eexists. split; [reflexivity|].
  match goal with
  | |- context [foldl ?f ?s ?l] =>
      pose proof (notify_all_frame l s) as (Hdb & Hls & _ & Hcur)
  end.
  unfold addresses. rewrite Hdb, Hls, Hcur. cbn.
  split; [reflexivity|]. split; [reflexivity|].
  split; [apply setMessageCount_addresses|apply setMessageCount_currentEmail].
Qed.

Lemma checkMail_records_count_witness :
  let st := with_currentEmail "a@x.com"
              (with_emailDatabase [sample_entry "a@x.com" None] (fresh "device")) in
  exists st',
    checkMail true (Body [sample_message 7; sample_message 8]) st = Normal st' /\
    emailDatabase st' = [with_messages 2 (sample_entry "a@x.com" None)].
Proof.
  cbv zeta.
  destruct (checkMail_records_count true [sample_message 7; sample_message 8]
              (with_currentEmail "a@x.com"
                 (with_emailDatabase [sample_entry "a@x.com" None] (fresh "device"))))
    as (st' & Hrun & Hdb & _); [discriminate|].
  exists st'. split; [exact Hrun|]. rewrite Hdb. reflexivity.
Defined.

End Polls.

(** ** Entries without expiration *)

Section Manual.

Lemma generateNewEmail_entries (reply : Fetched MailboxData) (st st' : Dispenser) :
  generateNewEmail reply st = Normal st' -> emailDatabase st' = emailDatabase st.
Proof.
  unfold generateNewEmail.
  destruct reply as [|status| |[|[|first rest]]]; intros [= <-]; reflexivity.
Qed.

Lemma manual_ext (address : string) (st st' : Dispenser) :
  emailDatabase st' = emailDatabase st -> manual address st -> manual address st'.
Proof. unfold manual. intros ->. auto. Qed.

Lemma manual_setMessageCount (address : string) (count : nat) (st : Dispenser) :
  manual address st -> manual address (setMessageCount count st).
Proof.
  intros Hm. destruct (setMessageCount_cases count st) as [->|(db & -> & Hkeep)];
    [exact Hm|].
  apply (manual_ext address (with_emailDatabase db st));
    [apply saveToLocalStorage_emailDatabase|].
  apply Hkeep, Hm.
Qed.

Lemma manual_checkMail
    (address : string) (silent : bool) (reply : Fetched (list Message))
    (st st' : Dispenser) :
  checkMail silent reply st = Normal st' -> manual address st -> manual address st'.
Proof.
  intros Hrun Hm. apply checkMail_store in Hrun as [_ [[Hdb _]|(count & Hdb & _)]].
  - exact (manual_ext address st st' Hdb Hm).
  - apply (manual_ext address (setMessageCount count st) st' Hdb).
    apply manual_setMessageCount, Hm.
Qed.

Lemma manual_appended (address : string) (entry : Entry) (st st' : Dispenser) :
  emailDatabase st' = emailDatabase st ++ [entry] ->
  manual address st -> manual address st'.
Proof.
  intros Hdb (e & Hin & Ha & He). exists e. rewrite Hdb.
  split; [apply elem_of_app; left; exact Hin|auto].
Qed.

Lemma manual_saveEmailWithExpiration
    (address : string) (hours : option Number) (now : Z) (st st' : Dispenser) :
  saveEmailWithExpiration hours now st = Normal st' ->
  manual address st -> manual address st'.
Proof.
  intros Hrun. apply saveEmailWithExpiration_result in Hrun as (entry & Hdb & _).
  apply (manual_appended address entry), Hdb.
Qed.

(** X13: an entry without expiration is only ever removed by hand.  Through
    every sequence of events other than deleting a row and clearing the
    history (generating, committing, polling, selecting, auto-refresh,
    expiration ticks at any time) its address keeps a live entry without
    expiration. *)
Theorem manual_entry_survives (address : string) (st st' : Dispenser) :
  manual address st -> rtc handles_keeping st st' -> manual address st'.
Proof.
  intros Hm Hsteps. induction Hsteps as [st|st st1 st2 (a & Hkeep & Hact) _ IH];
    [exact Hm|].
  apply IH. clear IH.
  destruct a as [reply|option now|time unit now|reply|addr reply|reply|now|index|confirmed];
    cbn [act removes_nothing] in *; try discriminate.
  - exact (manual_ext _ _ _ (generateNewEmail_entries _ _ _ Hact) Hm).
  - destruct option as [| |hours]; cbn [handleExpirationOption] in Hact.
    + injection Hact as <-. exact Hm.
    + exact (manual_saveEmailWithExpiration _ _ _ _ _ Hact Hm).
    + exact (manual_saveEmailWithExpiration _ _ _ _ _ Hact Hm).
  - unfold saveCustomExpiration in Hact. destruct (_ || _).
    + injection Hact as <-. exact (manual_ext _ st _ eq_refl Hm).
    + exact (manual_saveEmailWithExpiration _ _ _ _ _ Hact Hm).
  - exact (manual_checkMail _ _ _ _ _ Hact Hm).
  - unfold selectEmailFromHistory in Hact.
    apply (manual_checkMail address _ _ _ _ Hact).
    exact (manual_ext _ st _ eq_refl Hm).
  - unfold autoRefresh in Hact. destruct (String.eqb _ _).
    + injection Hact as <-. exact Hm.
    + exact (manual_checkMail _ _ _ _ _ Hact Hm).
  - injection Hact as <-. destruct Hm as (e & Hin & Ha & He). exists e.
    split; [|auto]. rewrite checkExpirations_entries.
    apply list_elem_of_In, filter_In. split; [apply list_elem_of_In, Hin|].
    unfold expired. rewrite He. reflexivity.
Qed.

Lemma manual_entry_survives_witness :
  let st := with_emailDatabase [sample_entry "a@x.com" None] (fresh "device") in
  manual "a@x.com" (checkExpirations 99999 st).
Proof.
  cbv zeta.
  apply (manual_entry_survives "a@x.com"
           (with_emailDatabase [sample_entry "a@x.com" None] (fresh "device"))).
  - exists (sample_entry "a@x.com" None). split; [left|split; reflexivity].
  - apply rtc_once. exists (ExpirationTick 99999). split; reflexivity.
Defined.

End Manual.

(** ** When the display says "Expired" *)

Section Display.

Lemma decimal_head (d : Z) :
  exists c rest, decimal d = String c rest /\ String c "" <> "E".
Proof.
  unfold decimal. destruct (Z.to_int d) as [u|u].
  - destruct u; cbn; do 2 eexists; (split; [reflexivity|discriminate]).
  - cbn. do 2 eexists. split; [reflexivity|discriminate].
Qed.

Lemma Number_toString_head (x : Number) :
  exists c rest, Number_toString x = String c rest /\ String c "" <> "E".
Proof.
  destruct x as [s|s| |s m e].
  - do 2 eexists. split; [reflexivity|discriminate].
  - destruct s; do 2 eexists; (split; [reflexivity|discriminate]).
  - do 2 eexists. split; [reflexivity|discriminate].
  - unfold Number_toString. destruct (shortest _ _ _ _ _) as [d n].
    destruct (decimal_head d) as (c & rest & Hd & Hc). rewrite Hd. cbv zeta.
    destruct s; [cbn; do 2 eexists; split; [reflexivity|discriminate]|].
    cbn [String.append].
    set (k := Z.of_nat (String.length (String c rest))).
    destruct ((k <=? n) && (n <=? 21)).
    { cbn. do 2 eexists. split; [reflexivity|exact Hc]. }
    destruct ((0 <? n) && (n <=? 21)) eqn:Hn.
    { apply andb_prop in Hn as [Hn _]. apply Z.ltb_lt in Hn.
      destruct (Z.to_nat n) as [|j] eqn:Hj; [lia|].
      cbn. do 2 eexists. split; [reflexivity|exact Hc]. }
    destruct ((-6 <? n) && (n <=? 0)).
    { cbn. do 2 eexists. split; [reflexivity|discriminate]. }
    destruct (k =? 1); cbn; do 2 eexists; (split; [reflexivity|exact Hc]).
Qed.

Lemma Number_toString_not_Expired (x : Number) (rest : string) :
  Number_toString x +:+ rest <> "Expired".
Proof.
  destruct (Number_toString_head x) as (c & r & -> & Hc). cbn.
  intros [= -> _]. apply Hc. reflexivity.
Qed.

Lemma formatTimeLeft_not_below_zero (totalHours : Number) :
  lt totalHours (of_Z 0) = false -> formatTimeLeft totalHours <> "Expired".
Proof.
  intros Hlt. unfold formatTimeLeft. rewrite Hlt.
  repeat match goal with
         | |- context [if lt totalHours ?b then _ else _] => destruct (lt totalHours b)
         end;
    cbv zeta; apply Number_toString_not_Expired.
Qed.

(** X14: [formatTimeLeft] answers "Expired" for the inputs below zero and
    for no others: zero, [-0], every positive Number, [Infinity] and [NaN]
    are rendered as a duration. *)
Theorem formatTimeLeft_Expired_iff (totalHours : Number) :
  formatTimeLeft totalHours = "Expired" <-> lt totalHours (of_Z 0) = true.
Proof.
  destruct (lt totalHours (of_Z 0)) eqn:Hlt.
  - split; [reflexivity|]. intros _. unfold formatTimeLeft. rewrite Hlt. reflexivity.
  - split; [|discriminate]. intros Hfmt.
    destruct (formatTimeLeft_not_below_zero totalHours Hlt Hfmt).
Qed.

Lemma formatTimeLeft_Expired_iff_witness :
  formatTimeLeft (div (of_Z (-1)) (of_Z 3600000)) = "Expired".
Proof.
  apply (proj2 (formatTimeLeft_Expired_iff (div (of_Z (-1)) (of_Z 3600000)))).
  vm_compute. reflexivity.
Defined.

Lemma Zpos_iter_xO (p k : positive) : Zpos (Pos.iter xO p k) = Zpos p * 2 ^ Zpos k.
Proof.
  change (Pos.iter xO p k) with (shift_pos k p).
  rewrite shift_pos_correct, Z.pow_pos_fold. lia.
Qed.

Lemma digits2_pos_iter_xO (p k : positive) :
  digits2_pos (Pos.iter xO p k) = (digits2_pos p + k)%positive.
Proof.
  induction k as [|k IH] using Pos.peano_ind.
  - cbn. lia.
  - rewrite Pos.iter_succ. cbn [digits2_pos]. rewrite IH. lia.
Qed.

Lemma shl_align_value (m : positive) (e ez : Z) :
  ez <= e -> Zpos (fst (shl_align m e ez)) = Zpos m * 2 ^ (e - ez).
Proof.
  intros Hle. unfold shl_align. destruct (ez - e) as [|d|d] eqn:Hd; cbn [fst].
  - replace (e - ez) with 0 by lia. lia.
  - lia.
  - rewrite Zpos_iter_xO. f_equal. f_equal. lia.
Qed.

(** Rounding a canonical mantissa changes nothing. *)
Lemma binary_round_aux_canonical (s : bool) (m : positive) (e : Z) :
  fexp prec emax (Zpos (digits2_pos m) + e) = e ->
  e <= emax - prec ->
  binary_round_aux prec emax s (Zpos m) e loc_Exact = S754_finite s m e.
Proof.
  intros Hcanon Hmax. unfold binary_round_aux, shr_fexp. cbn [Zdigits2].
  rewrite Hcanon, Z.sub_diag. cbn [shr shr_record_of_loc shr_m loc_of_shr_record
                                       round_nearest_even Zdigits2].
  rewrite Hcanon, Z.sub_diag. cbn [shr shr_record_of_loc shr_m].
  apply Z.leb_le in Hmax. rewrite Hmax. reflexivity.
Qed.

(** An integer below [2^53] in absolute value is a Number exactly. *)
Lemma binary_round_exact (s : bool) (p : positive) :
  Zpos p < 2 ^ 53 ->
  exists m e,
    binary_round prec emax s p 0 = S754_finite s m e /\
    -52 <= e <= 0 /\ Zpos m = Zpos p * 2 ^ (- e).
Proof.
  intros Hp. pose proof (digits2_pos_bounds p) as [Hlo _].
  assert (Hd : Zpos (digits2_pos p) <= 53).
  { assert (Zpos (digits2_pos p) - 1 < 53); [|lia].
    apply (Z.pow_lt_mono_r_iff 2); lia. }
  unfold binary_round, shl_align.
  assert (Hf : fexp prec emax (Zpos (digits2_pos p) + 0) = Zpos (digits2_pos p) - 53).
  { unfold fexp, SpecFloat.emin, prec, emax. lia. }
  rewrite Hf.
  destruct (Zpos (digits2_pos p) - 53 - 0) as [|k|k] eqn:Hk; [|lia|].
  - exists p, 0. split; [|split; [lia|cbn; lia]].
    apply binary_round_aux_canonical; [|unfold emax, prec; lia].
    rewrite Hf. lia.
  - exists (Pos.iter xO p k), (Zpos (digits2_pos p) - 53).
    split; [|split; [lia|]].
    + apply binary_round_aux_canonical; [|unfold emax, prec; lia].
      rewrite digits2_pos_iter_xO. unfold fexp, SpecFloat.emin, prec, emax. lia.
    + rewrite Zpos_iter_xO. f_equal. f_equal. lia.
Qed.

Lemma Zdigits2_pos (M : Z) : 0 < M -> 1 <= Zdigits2 M /\ 2 ^ (Zdigits2 M - 1) <= M.
Proof.
  destruct M as [|p|p]; try lia. intros _. cbn [Zdigits2].
  split; [lia|apply digits2_pos_bounds].
Qed.

(** Rounding a positive mantissa whose exponent is not below [emin] never
    gives zero: the result is infinite or finite, with the sign given. *)
Lemma binary_round_aux_nonzero (s : bool) (M E : Z) (l : location) :
  0 < M -> SpecFloat.emin prec emax <= E ->
  nonzero_with_sign s E (binary_round_aux prec emax s M E l).
Proof.
  intros HM HE. unfold SpecFloat.emin, prec, emax in HE.
  destruct (binary_round_aux_spec s M E l) as (m1' & Hb & ->); [lia|].
  cbv zeta in Hb.
  pose proof (Zdigits2_pos M HM) as [Hd1 HdM].
  set (e1 := Z.max E (fexp prec emax (Zdigits2 M + E))) in *.
  assert (He1 : 0 <= e1 - E <= Zdigits2 M - 1 /\ E <= e1).
  { unfold e1, fexp, SpecFloat.emin, prec, emax. lia. }
  assert (Hm1 : 1 <= M / 2 ^ (e1 - E)).
  { apply Z.div_le_lower_bound; [apply Z.pow_pos_nonneg; lia|].
    rewrite Z.mul_1_r. eapply Z.le_trans; [|exact HdM].
    apply Z.pow_le_mono_r; lia. }
  assert (Hm1' : 0 < m1') by lia.
  pose proof (Zdigits2_pos m1' Hm1') as [Hd2 Hdm].
  set (e2 := Z.max e1 (fexp prec emax (Zdigits2 m1' + e1))).
  assert (He2 : 0 <= e2 - e1 <= Zdigits2 m1' - 1 /\ e1 <= e2).
  { unfold e2, fexp, SpecFloat.emin, prec, emax. lia. }
  assert (Hm2 : 1 <= m1' / 2 ^ (e2 - e1)).
  { apply Z.div_le_lower_bound; [apply Z.pow_pos_nonneg; lia|].
    rewrite Z.mul_1_r. eapply Z.le_trans; [|exact Hdm].
    apply Z.pow_le_mono_r; lia. }
  destruct (m1' / 2 ^ (e2 - e1)) as [|m|m]; try lia.
  destruct (e2 <=? emax - prec); [right|left; reflexivity].
  exists m, e2. split; [reflexivity|lia].
Qed.

Lemma binary_round_nonzero (s : bool) (m : positive) (ex : Z) :
  SpecFloat.emin prec emax <= ex ->
  nonzero_with_sign s (ex - 52) (binary_round prec emax s m ex).
Proof.
  intros Hex. unfold binary_round.
  destruct (shl_align m ex (fexp prec emax (Zpos (digits2_pos m) + ex)))
    as [mz ez] eqn:Halign.
  assert (Hez : SpecFloat.emin prec emax <= ez /\ ex - 52 <= ez).
  { unfold shl_align in Halign.
    destruct (fexp prec emax (Zpos (digits2_pos m) + ex) - ex) as [|d|d] eqn:Hd;
      injection Halign as <- <-;
      unfold fexp, SpecFloat.emin, prec, emax in *; lia. }
  destruct (binary_round_aux_nonzero s (Zpos mz) ez loc_Exact) as [->|(m' & e' & -> & He')];
    [lia|apply Hez|left; reflexivity|].
  right. exists m', e'. split; [reflexivity|lia].
Qed.

(** The Number of a time value: zero, or finite with the sign of the value
    and its magnitude exactly. *)
Lemma of_Z_exact (z : Z) :
  Z.abs z < 2 ^ 53 ->
  (z = 0 /\ of_Z z = S754_zero false) \/
  (z <> 0 /\ exists m e,
     of_Z z = S754_finite (z <? 0) m e /\
     -52 <= e <= 0 /\ Zpos m = Z.abs z * 2 ^ (- e)).
Proof.
  intros Hz. destruct z as [|p|p]; [left; split; reflexivity| |]; right;
    (split; [discriminate|]);
    unfold of_Z, binary_normalize.
  - destruct (binary_round_exact false p) as (m & e & Hr & He & Hm); [exact Hz|].
    exists m, e. auto.
  - destruct (binary_round_exact true p) as (m & e & Hr & He & Hm); [exact Hz|].
    exists m, e. auto.
Qed.

(** The sign of the difference of two time values. *)
Lemma sub_of_Z_sign (a b : Z) :
  Z.abs a < 2 ^ 53 -> Z.abs b < 2 ^ 53 ->
  (a = b -> Number_sub (of_Z a) (of_Z b) = S754_zero false) /\
  (a <> b -> nonzero_with_sign (a <? b) (-104) (Number_sub (of_Z a) (of_Z b))).
Proof.
  intros Ha Hb. unfold Number_sub.
  destruct (of_Z_exact a Ha) as [[-> ->]|(Hna & ma & ea & -> & Hea & Hma)];
    destruct (of_Z_exact b Hb) as [[-> ->]|(Hnb & mb & eb & -> & Heb & Hmb)].
  - split; [reflexivity|congruence].
  - split; [congruence|]. intros _. cbn [SFsub]. right. exists mb, eb.
    split; [|lia]. f_equal. destruct (Z.ltb_spec b 0), (Z.ltb_spec 0 b); try reflexivity; lia.
  - split; [congruence|]. intros _. cbn [SFsub]. right. exists ma, ea.
    split; [|lia]. reflexivity.
  - cbn [SFsub]. cbv zeta.
    set (ez := Z.min ea eb).
    rewrite !shl_align_value by lia.
    assert (HA : cond_Zopp (a <? 0) (Zpos ma * 2 ^ (ea - ez)) = a * 2 ^ (- ez)).
    { rewrite Hma, <- Z.mul_assoc, <- Z.pow_add_r by lia.
      replace (- ea + (ea - ez)) with (- ez) by lia.
      destruct (Z.ltb_spec a 0); cbn [cond_Zopp]; lia. }
    assert (HB : cond_Zopp (b <? 0) (Zpos mb * 2 ^ (eb - ez)) = b * 2 ^ (- ez)).
    { rewrite Hmb, <- Z.mul_assoc, <- Z.pow_add_r by lia.
      replace (- eb + (eb - ez)) with (- ez) by lia.
      destruct (Z.ltb_spec b 0); cbn [cond_Zopp]; lia. }
    rewrite HA, HB, <- Z.mul_sub_distr_r.
    assert (Hpow : 0 < 2 ^ (- ez)) by (apply Z.pow_pos_nonneg; lia).
    split.
    + intros ->. rewrite Z.sub_diag. reflexivity.
    + intros Hne. unfold binary_normalize.
      destruct ((a - b) * 2 ^ (- ez)) as [|p|p] eqn:Hd.
      * apply Z.mul_eq_0 in Hd. lia.
      * assert (0 < a - b) by nia.
        assert ((a <? b) = false) as -> by (apply Z.ltb_ge; lia).
        destruct (binary_round_nonzero false p ez) as [->|(m' & e' & -> & He')];
          [unfold SpecFloat.emin, prec, emax; lia|left; reflexivity|].
        right. exists m', e'. split; [reflexivity|lia].
      * assert (a - b < 0) by nia.
        assert ((a <? b) = true) as -> by (apply Z.ltb_lt; lia).
        destruct (binary_round_nonzero true p ez) as [->|(m' & e' & -> & He')];
          [unfold SpecFloat.emin, prec, emax; lia|left; reflexivity|].
        right. exists m', e'. split; [reflexivity|lia].
Qed.

Lemma div_3600000_sign (s : bool) (x : Number) :
  nonzero_with_sign s (-104) x ->
  nonzero_with_sign s (SpecFloat.emin prec emax) (div x (of_Z 3600000)).
Proof.
  change (of_Z 3600000) with (S754_finite false 7730941132800000 (-31)).
  intros [->|(m & e & -> & He)]; unfold div, SFdiv.
  - left. destruct s; reflexivity.
  - unfold SFdiv_core_binary.
    change (Zdigits2 (Zpos 7730941132800000)) with 53.
    pose proof (Zdigits2_pos (Zpos m) ltac:(lia)) as [Hd Hm].
    set (d1 := Zdigits2 (Zpos m)) in *.
    assert (Hf : fexp prec emax (d1 + e - (53 + -31)) = d1 + e - 75).
    { unfold fexp, SpecFloat.emin, prec, emax. lia. }
    rewrite Hf.
    set (e' := Z.min (d1 + e - 75) (e - -31)).
    set (sft := e - -31 - e').
    assert (Hsft : 0 <= sft /\ 106 - d1 <= sft) by (unfold sft, e'; lia).
    assert (Hm' : match sft with
                  | 0 => Zpos m
                  | Zpos _ => Z.shiftl (Zpos m) sft
                  | Zneg _ => 0
                  end = Zpos m * 2 ^ sft).
    { destruct sft as [|k|k] eqn:Hk; [lia| |lia].
      apply Z.shiftl_mul_pow2. lia. }
    rewrite Hm'.
    assert (Hbig : 7730941132800000 <= Zpos m * 2 ^ sft).
    { assert (2 ^ 105 <= 2 ^ (d1 - 1) * 2 ^ sft).
      { rewrite <- Z.pow_add_r by lia. apply Z.pow_le_mono_r; lia. }
      assert (0 < 2 ^ sft) by (apply Z.pow_pos_nonneg; lia).
      assert (2 ^ (d1 - 1) * 2 ^ sft <= Zpos m * 2 ^ sft) by nia.
      assert (7730941132800000 <= 2 ^ 105) by (vm_compute; discriminate).
      lia. }
    destruct (Z.div_eucl (Zpos m * 2 ^ sft) 7730941132800000) as [q r] eqn:Hqr.
    assert (Hq : q = Zpos m * 2 ^ sft / 7730941132800000)
      by (unfold Z.div; rewrite Hqr; reflexivity).
    assert (1 <= q).
    { rewrite Hq. apply Z.div_le_lower_bound; lia. }
    replace (xorb s false) with s by (destruct s; reflexivity).
    destruct (binary_round_aux_nonzero s q e'
                (new_location 7730941132800000 r))
      as [Hr|(m' & e'' & Hr & He'')];
      [lia|unfold e', SpecFloat.emin, prec, emax; lia| |].
    + left. exact Hr.
    + right. exists m', e''. split; [exact Hr|].
      unfold e', SpecFloat.emin, prec, emax in *. lia.
Qed.

Lemma lt_zero_sign (s : bool) (low : Z) (x : Number) :
  nonzero_with_sign s low x -> lt x (of_Z 0) = s.
Proof. intros [->|(m & e & -> & _)]; destruct s; reflexivity. Qed.

(** The hours left are below zero exactly when the expiration is before
    the clock reading. *)
Lemma hoursLeft_below_zero (t now : Z) :
  in_Date_range t -> in_Date_range now ->
  (lt (div (Number_sub (of_Z t) (of_Z now)) (of_Z 3600000)) (of_Z 0) = (t <? now)) /\
  (t = now ->
   div (Number_sub (of_Z t) (of_Z now)) (of_Z 3600000) = S754_zero false).
Proof.
  unfold in_Date_range. intros Ht Hnow.
  assert (H53 : 8640000000000000 < 2 ^ 53) by (vm_compute; reflexivity).
  destruct (sub_of_Z_sign t now) as [Heq Hne]; [lia|lia|].
  destruct (Z.eq_dec t now) as [Hsame|Hdiff].
  - rewrite (Heq Hsame). split; [|intros _; reflexivity].
    subst. rewrite Z.ltb_irrefl. reflexivity.
  - split; [|contradiction].
    apply (lt_zero_sign _ (SpecFloat.emin prec emax)), div_3600000_sign, Hne, Hdiff.
Qed.

Lemma hourglass_inj (a b : string) : "⏳ " +:+ a = "⏳ " +:+ b -> a = b.
Proof. cbn. intros [= H]. exact H. Qed.

(** X15: for time values a Date can hold, the countdown of an entry reads
    "Expired" exactly when its expiration is strictly before the clock
    reading; at the very instant of expiration it still reads "1s"; an
    entry without expiration reads "Manual deletion". *)
Theorem getExpirationInfo_Expired_iff (entry : Entry) (now : Z) :
  in_Date_range now ->
  (expiration entry = None -> getExpirationInfo entry now = "Manual deletion") /\
  (forall t,
     expiration entry = Some t -> in_Date_range t ->
     ((getExpirationInfo entry now = "⏳ Expired") <-> (t < now)) /\
     (t = now -> getExpirationInfo entry now = "⏳ 1s")).
Proof.
  intros Hnow. unfold getExpirationInfo. split; [intros ->; reflexivity|].
  intros t -> Ht. cbv zeta.
  destruct (hoursLeft_below_zero t now Ht Hnow) as [Hlt Hzero].
  split; [split|].
  - intros Hshown. apply (hourglass_inj _ "Expired") in Hshown.
    destruct (Z.ltb_spec t now) as [Hbefore|Hafter]; [exact Hbefore|].
    destruct (formatTimeLeft_not_below_zero _ Hlt Hshown).
  - intros Hbefore. apply Z.ltb_lt in Hbefore. rewrite Hbefore in Hlt.
    unfold formatTimeLeft. rewrite Hlt. reflexivity.
  - intros Hsame. rewrite (Hzero Hsame). vm_compute. reflexivity.
Qed.

Lemma getExpirationInfo_Expired_iff_witness :
  getExpirationInfo (sample_entry "a@x.com" (Some 1700000000000)) 1700000000001
    = "⏳ Expired".
Proof.
  apply (proj2 (getExpirationInfo_Expired_iff
                  (sample_entry "a@x.com" (Some 1700000000000)) 1700000000001
                  ltac:(unfold in_Date_range; cbn; lia))
           1700000000000 eq_refl ltac:(unfold in_Date_range; cbn; lia)).
  lia.
Defined.

(** X16: the sweep and the display agree up to the instant of expiration.
    At one clock reading, an entry the sweep leaves never reads "Expired",
    and an entry that reads "Expired" is removed by the sweep; an entry
    expiring exactly at that reading is removed although it reads "1s". *)
Theorem sweep_agrees_with_display (now : Z) (st : Dispenser) (entry : Entry) (t : Z) :
  in_Date_range now -> in_Date_range t ->
  entry ∈ emailDatabase st ->
  expiration entry = Some t ->
  (entry ∈ emailDatabase (checkExpirations now st) ->
   getExpirationInfo entry now <> "⏳ Expired") /\
  (getExpirationInfo entry now = "⏳ Expired" ->
   entry ∉ emailDatabase (checkExpirations now st)) /\
  (t = now ->
   (entry ∉ emailDatabase (checkExpirations now st)) /\
   getExpirationInfo entry now = "⏳ 1s").
Proof.
  intros Hnow Ht Hin Hexp.
  assert (Hkept : (entry ∈ emailDatabase (checkExpirations now st)) <-> (now < t)).
  { rewrite checkExpirations_entries, list_elem_of_In, filter_In, <- list_elem_of_In.
    unfold expired. rewrite Hexp, negb_true_iff, Z.leb_gt. tauto. }
  assert (Hshown : getExpirationInfo entry now = "⏳ Expired" -> t < now).
  { unfold getExpirationInfo. rewrite Hexp. cbv zeta. intros Hs.
    apply (hourglass_inj _ "Expired") in Hs.
    destruct (hoursLeft_below_zero t now Ht Hnow) as [Hlt _].
    destruct (Z.ltb_spec t now) as [Hbefore|Hafter]; [exact Hbefore|].
    destruct (formatTimeLeft_not_below_zero _ Hlt Hs). }
  split; [|split].
  - intros Hk Hs. apply Hkept in Hk. apply Hshown in Hs. lia.
  - intros Hs Hk. apply Hkept in Hk. apply Hshown in Hs. lia.
  - intros Hsame. split; [intros Hk; apply Hkept in Hk; lia|].
    unfold getExpirationInfo. rewrite Hexp. cbv zeta.
    destruct (hoursLeft_below_zero t now Ht Hnow) as [_ Hzero].
    rewrite (Hzero Hsame). vm_compute. reflexivity.
Qed.

Lemma sweep_agrees_with_display_witness :
  let entry := sample_entry "a@x.com" (Some 1700000000000) in
  let st := with_emailDatabase [entry] (fresh "device") in
  (entry ∉ emailDatabase (checkExpirations 1700000000000 st)) /\
  getExpirationInfo entry 1700000000000 = "⏳ 1s".
Proof.
  cbv zeta.
  apply (proj2 (proj2 (sweep_agrees_with_display 1700000000000
                         (with_emailDatabase
                            [sample_entry "a@x.com" (Some 1700000000000)]
                            (fresh "device"))
                         (sample_entry "a@x.com" (Some 1700000000000))
                         1700000000000
                         ltac:(unfold in_Date_range; cbn; lia)
                         ltac:(unfold in_Date_range; cbn; lia)
                         ltac:(left) eq_refl))).
  reflexivity.
Defined.

End Display.

(** ** What never changes on an entry *)

Section Immutable.










(** X18: selecting a row and the background refresh are silent.  Whatever
    the reply, they return normally, add no error toast and leave the
    addresses of the entries as they are; selecting makes the address the
    selection even when the fetch fails, and a refresh without a selection
    changes nothing at all. *)
Theorem select_and_refresh_are_silent
    (address : string) (reply : Fetched (list Message)) (st : Dispenser) :
  (exists st',
     selectEmailFromHistory address reply st = Normal st' /\
     currentEmail st' = address /\
     addresses st' = addresses st /\
     forall toast, toast ∈ toasts st' ->
                   toast ∈ toasts st \/ toast_type toast = success) /\
  (exists st',
     autoRefresh reply st = Normal st' /\
     addresses st' = addresses st /\
     (currentEmail st = "" -> st' = st) /\
     forall toast, toast ∈ toasts st' ->
                   toast ∈ toasts st \/ toast_type toast = success).
Proof.
  assert (Hsilent : forall st0 : Dispenser,
            exists st',
              checkMail true reply st0 = Normal st' /\
              currentEmail st' = currentEmail st0 /\
              addresses st' = addresses st0 /\
              forall toast, toast ∈ toasts st' ->
                            toast ∈ toasts st0 \/ toast_type toast = success).
  { intros st0. destruct (String.eqb_spec (currentEmail st0) "") as [Hnone|Hsel].
    - exists st0. unfold checkMail. rewrite Hnone. cbn. auto.
    - destruct reply as [|status| |messages];
        try solve [eexists; unfold checkMail;
                   apply String.eqb_neq in Hsel; rewrite Hsel;
                   (split; [reflexivity|]); cbn; auto].
      destruct (checkMail_success true messages st0 Hsel)
        as (st' & Hrun & Hraised & _ & _ & Hcur).
      exists st'. split; [exact Hrun|]. split; [exact Hcur|]. split.
      + revert Hrun. unfold checkMail. apply String.eqb_neq in Hsel. rewrite Hsel.
        cbn [await_json mbind Completion_bind try_catch]. intros [= <-].
        match goal with
        | |- context [foldl ?f ?s ?l] =>
            pose proof (notify_all_frame l s) as (Hdb & _)
        end.
        unfold addresses. rewrite Hdb. cbn. apply setMessageCount_addresses.
      + intros toast Hin. unfold raised in Hraised.
        destruct (_ || _); destruct Hraised as [Ht Hn].
        * rewrite Ht in Hin. apply elem_of_app in Hin as [Hin|Hin]; [left; exact Hin|].
          right. apply list_elem_of_fmap in Hin as (msg & -> & _). reflexivity.
        * rewrite Hn in Hin. left. exact Hin. }
  split.
  - unfold selectEmailFromHistory.
    destruct (Hsilent (with_currentEmail address st)) as (st' & Hrun & Hcur & Haddr & Ht).
    exists st'. auto.
  - unfold autoRefresh. destruct (String.eqb_spec (currentEmail st) "") as [Hnone|Hsel].
    + exists st. auto.
    + destruct (Hsilent st) as (st' & Hrun & Hcur & Haddr & Ht).
      exists st'. split; [exact Hrun|]. split; [exact Haddr|].
      split; [contradiction|exact Ht].
Qed.

Lemma select_and_refresh_are_silent_witness :
  autoRefresh (HttpFailure 500) (fresh "device") = Normal (fresh "device").
Proof.
  destruct (proj2 (select_and_refresh_are_silent "a@x.com" (HttpFailure 500)
                     (fresh "device")))
    as (st' & Hrun & _ & Hsame & _).
  rewrite Hrun. f_equal. apply Hsame. reflexivity.
Defined.

End Immutable.
